(** * Bond pricing and yield: day count, pricing, yield residual

    A shallow embedding of [bonds/fixedrate_bond.py], [bonds/variablerate_bond.py]
    and [fixed_income/bondmath.py].

    The sources are read as Python 3: [/] is true division, and the
    variables of a list comprehension do not leak into the enclosing
    function.

    Numbers.  Python's [int] is [Z].  The period computation of
    [calendar_360] is modelled twice.  [DayCount] runs it in exact rational
    arithmetic ([Q], so the branch test [t == T] computes); the bond records
    hold these rationals.  [DayCountFloat] runs the same three lines on
    IEEE 754 binary64, with the kernel's primitive floats.  The two agree,
    value for value, for the frequencies that divide the year into whole
    days (1, 2, 3, 4, 6, 12) and dates at most a hundred years apart
    ([period_of_days_exact], checked on every day count); for other
    frequencies they need not, and examples at 7 and at 15 coupons a year
    are given.

    Prices and rates are reals ([R]); the rounding of binary64 is not
    modelled.  Binary64 can also do something other than round: [(1+y)**n]
    overflows or underflows, the closed form cancels near [y = 0], numpy
    produces [inf]/[nan] (a numpy float divided by zero) and Python a
    complex number (a negative base raised to a fractional power).  There
    the real-valued expression below is still defined by the total
    operations of the library, and the statements about the value that a
    pricing call returns stay away from it: they are made within
    [series_range] or [closed_form_range], carry [0 < 1 + y], or are
    conditional on the call returning.

    Exceptions are explicit: a call either [Returns] a value or [Raises] a
    Python exception. *)

From Stdlib Require Import ZArith QArith Qround Qreals Reals Psatz Lia List Bool.
From Stdlib Require PrimFloat FloatOps SpecFloat Uint63.
Import ListNotations.

(** ** Python outcomes *)

Inductive exn : Set :=
| NameError
| UnboundLocalError
| IndexError
| ZeroDivisionError
| RuntimeError.

Inductive outcome (A : Type) : Type :=
| Returns : A -> outcome A
| Raises : exn -> outcome A.

Arguments Returns {A} _.
Arguments Raises {A} _.

Definition bind {A B : Type} (m : outcome A) (k : A -> outcome B) : outcome B :=
  match m with
  | Returns a => k a
  | Raises e => Raises e
  end.

Notation "x <- m ;; k" := (bind m (fun x => k))
  (at level 61, m at next level, right associativity).

Definition fails {A : Type} (m : outcome A) : Prop := exists e, m = Raises e.

(** A float that may be the missing-value sentinel [np.nan]. *)
Inductive pyfloat : Type :=
| Num : R -> pyfloat
| NaN : pyfloat.

(** ** Python arithmetic used by the sources *)

(** [sum(xs)]: left fold from [0]. *)
Definition py_sum (xs : list R) : R := fold_left Rplus xs 0%R.

(** [a % b] on floats: the result takes the sign of the divisor,
    [a - b * floor(a / b)]. *)
Definition py_mod (a b : Q) : Q := (a - b * inject_Z (Qfloor (a / b)))%Q.

(** [q ** e] with a float exponent: [exp (e * ln q)] for a positive base;
    [0.0 ** e] is [1.0] for [e = 0] and [0.0] for [e > 0].  Python raises on
    [0.0 ** e] with [e < 0]; the pricing functions below guard that case
    where the exponent can be negative ([t/T] itself never is in a
    constructed bond).  A negative base is outside the model. *)
Definition float_pow (q e : R) : R :=
  if Req_EM_T q 0 then (if Req_EM_T e 0 then 1%R else 0%R) else Rpower q e.

(** [scipy.optimize.newton(func, x0, maxiter=...)], seen from its caller: it
    returns its root estimate, or raises [RuntimeError] when [maxiter]
    iterations did not converge.  The library is not part of the repository;
    the functions that call it take it as an argument. *)
Definition solver : Type := (R -> R) -> R -> nat -> outcome R.

(** [np.array(range(n)) + 1]: the period indices [1 .. n] (empty when
    [n <= 0]). *)
Definition periods (n : Z) : list nat := seq 1 (Z.to_nat n).

(** ** Calendar dates and [calendar.monthrange] *)

Record date : Set := mkDate { year : Z; month : Z; day : Z }.

Definition isleap (y : Z) : bool :=
  ((y mod 4 =? 0) && (negb (y mod 100 =? 0) || (y mod 400 =? 0)))%Z.

(** [calendar.monthrange(year, month)[-1]]: the number of days of the month. *)
Definition monthrange_days (y m : Z) : Z :=
  if (m =? 2)%Z then (if isleap y then 29 else 28)%Z
  else if ((m =? 4) || (m =? 6) || (m =? 9) || (m =? 11))%Z then 30%Z
  else 31%Z.

Definition valid_date (d : date) : Prop :=
  (1 <= year d /\ 1 <= month d <= 12 /\
   1 <= day d <= monthrange_days (year d) (month d))%Z.

Definition date_lt (a b : date) : Prop :=
  (year a < year b \/
   (year a = year b /\ (month a < month b \/
                        (month a = month b /\ day a < day b))))%Z.

(** ** The 30/360 period computation

    [calendar_360] is the same method, line for line, in [FixedRateBond]
    and in [BondInfo]; it reads [self.tDate], [self.mDate] and [self.freq]. *)

Module DayCount.

(** Lines 117-124 (fixed) / 121-128 (variable): the four [if]s, in order. *)
Definition normalize_days (tD mD : date) : Z * Z :=
  let t_day := day tD in
  let m_day := day mD in
  let t_day :=
    if ((month tD =? 2) && (t_day =? monthrange_days (year tD) (month tD)))%Z
    then 30%Z else t_day in
  let m_day :=
    if ((month mD =? 2) && (m_day =? monthrange_days (year mD) (month mD)))%Z
    then 30%Z else m_day in
  let m_day :=
    if (((t_day =? 30) || (t_day =? 31)) && (m_day =? 31))%Z
    then 30%Z else m_day in
  let t_day := if (30 <? t_day)%Z then 30%Z else t_day in
  (t_day, m_day).

Definition n_days (tD mD : date) : Z :=
  let '(t_day, m_day) := normalize_days tD mD in
  (360 * (year mD - year tD) + 30 * (month mD - month tD) + (m_day - t_day))%Z.

(** [n = int(np.ceil(n_days / 360 * freq))], [T = 360 / freq],
    [t = T - n_days % T], in exact arithmetic.  [360 / freq] raises for
    [freq = 0]. *)
Definition calendar_360 (tD mD : date) (freq : Z) : outcome (Z * Q * Q) :=
  let nd := n_days tD mD in
  let n := Qceiling (inject_Z nd / 360 * inject_Z freq)%Q in
  if (freq =? 0)%Z then Raises ZeroDivisionError
  else
    let T := (360 / inject_Z freq)%Q in
    let t := (T - py_mod (inject_Z nd) T)%Q in
    Returns (n, T, t).

End DayCount.

(** ** Binary64 arithmetic of the period computation

    [calendar_360] computes [n], [T] and [t] on Python floats (IEEE 754
    binary64).  The kernel's primitive floats are binary64 with
    round-to-nearest-even, so the three lines are run here as written.
    A finite float is [m * 2^e] for integers [m] and [e]. *)

Module Binary64.

Definition float : Set := PrimFloat.float.

(** Mantissa and exponent of a finite float; [None] for [inf] and [nan]. *)
Definition decode (f : float) : option (Z * Z) :=
  match FloatOps.Prim2SF f with
  | SpecFloat.S754_zero _ => Some (0, 0)%Z
  | SpecFloat.S754_finite s m e => Some (if s then Zneg m else Zpos m, e)
  | _ => None
  end.

(** The rational [m * 2^e]. *)
Definition scaled (m e : Z) : Q :=
  match e with
  | Z0 => inject_Z m
  | Zpos p => inject_Z (m * 2 ^ Zpos p)
  | Zneg p => (m # (2 ^ p))%Q
  end.

(** The exact value of a finite float. *)
Definition F2Q (f : float) : option Q :=
  match decode f with
  | Some (m, e) => Some (scaled m e)
  | None => None
  end.

Definition two53 : Z := (2 ^ 53)%Z.

(** [float(z)] for a Python [int] with [|z| < 2^53]: the conversion is exact. *)
Definition Z2F (z : Z) : float :=
  if (z <? 0)%Z then PrimFloat.opp (PrimFloat.of_uint63 (Uint63.of_Z (- z)))
  else PrimFloat.of_uint63 (Uint63.of_Z z).

(** The float [m * 2^e], when that number is representable. *)
Definition encode (m e : Z) : float := FloatOps.Z.ldexp (Z2F m) e.

(** [int(np.ceil(f))]. *)
Definition float_ceil (f : float) : option Z :=
  match decode f with
  | Some (m, e) =>
      Some (if (0 <=? e)%Z then m * 2 ^ e else - ((- m) / 2 ^ (- e)))%Z
  | None => None
  end.

(** C's [fmod(x, w)]: the exact remainder of [x / w] truncated towards zero,
    with the sign of [x]; it is always representable.  [None] for [w = 0]
    and for [inf]/[nan]. *)
Definition fmod (x w : float) : option float :=
  match decode x, decode w with
  | Some (mx, ex), Some (mw, ew) =>
      if (mw =? 0)%Z then None
      else
        let e := Z.min ex ew in
        let r := Z.rem (mx * 2 ^ (ex - e)) (mw * 2 ^ (ew - e)) in
        if (two53 <=? Z.abs r)%Z then None else Some (encode r e)
  | _, _ => None
  end.

(** Python's [x % w] on floats ([float_rem] of CPython): [fmod], moved by
    one [w] when its sign differs from the sign of [w]. *)
Definition py_float_mod (x w : float) : option float :=
  match fmod x w with
  | Some m =>
      if PrimFloat.eqb m (Z2F 0)
      then Some (if PrimFloat.ltb w (Z2F 0) then PrimFloat.opp (Z2F 0) else Z2F 0)
      else if negb (Bool.eqb (PrimFloat.ltb w (Z2F 0)) (PrimFloat.ltb m (Z2F 0)))
           then Some (PrimFloat.add m w)
           else Some m
  | None => None
  end.

(** The float [f] is the integer [z]. *)
Definition is_integer (f : float) (z : Z) : bool :=
  match decode f with
  | Some (m, e) => if (0 <=? e)%Z then (m * 2 ^ e =? z)%Z else (m =? z * 2 ^ (- e))%Z
  | None => false
  end.

End Binary64.

(** [calendar_360] on binary64.  The day normalisation and [n_days] are
    integer arithmetic, as in [DayCount].  The result is [None] outside the
    modelled range: [|n_days|] or [|freq|] from [2^53] on, where [int] to
    float conversion rounds. *)

Module DayCountFloat.

(** [n = int(np.ceil(n_days / 360 * freq))], [T = 360 / freq],
    [t = T - n_days % T]. *)
Definition period_of_days (n_days freq : Z)
    : option (outcome (Z * Binary64.float * Binary64.float)) :=
  if ((Binary64.two53 <=? Z.abs n_days) || (Binary64.two53 <=? Z.abs freq))%Z then None
  else
    match Binary64.float_ceil
            (PrimFloat.mul (PrimFloat.div (Binary64.Z2F n_days) (Binary64.Z2F 360))
                           (Binary64.Z2F freq)) with
    | None => None
    | Some n =>
        if (freq =? 0)%Z then Some (Raises ZeroDivisionError)
        else
          let T := PrimFloat.div (Binary64.Z2F 360) (Binary64.Z2F freq) in
          match Binary64.py_float_mod (Binary64.Z2F n_days) T with
          | None => None
          | Some m => Some (Returns (n, T, PrimFloat.sub T m))
          end
    end.

Definition calendar_360 (tD mD : date) (freq : Z)
    : option (outcome (Z * Binary64.float * Binary64.float)) :=
  period_of_days (DayCount.n_days tD mD) freq.

End DayCountFloat.

(** ** [class FixedRateBond] (bonds/fixedrate_bond.py)

    The coupon rate [ac] is one number.  [ytm] is given as a number (the
    default [np.nan] only prints a warning and is not modelled);
    [calendarDays] defaults to [365] in the source. *)

Module FixedRateBond.

Record self : Type := mkSelf {
  tDate : date;
  mDate : date;
  fv : R;
  ac : R;
  c : R;
  ytm : R;
  y : R;
  apmt : R;
  pmt : R;
  freq : Z;
  n : Z;
  t : Q;
  T : Q;
  calendarDays : Z
}.

Definition calendar_360 (tDate mDate : date) (freq : Z) : outcome (Z * Q * Q) :=
  DayCount.calendar_360 tDate mDate freq.

(** Lines 20-64.  [self.ytm / freq] divides a Python float by [freq] and
    raises for [freq = 0]; for any [calendarDays] other than [360] the
    branch is [pass] and [self.n = n] reads a local that was never bound. *)
Definition __init__ (tDate mDate : date) (fv ac : R) (freq : Z) (ytm : R)
    (calendarDays : Z) : outcome self :=
  let ac := (ac / 100)%R in
  let c := (ac / IZR freq)%R in
  let ytm := (ytm / 100)%R in
  if (freq =? 0)%Z then Raises ZeroDivisionError
  else
    let y := (ytm / IZR freq)%R in
    let apmt := (ac * fv)%R in
    let pmt := (apmt / IZR freq)%R in
    period <- (if (calendarDays =? 360)%Z
               then calendar_360 tDate mDate freq
               else Raises UnboundLocalError) ;;
    let '(n, T, t) := period in
    Returns (mkSelf tDate mDate fv ac c ytm y apmt pmt freq n t T calendarDays).

(** [t/T]; [T] is [360/freq], never zero, in a constructed bond. *)
Definition stub (b : self) : R := (Q2R (t b) / Q2R (T b))%R.

(** The test [t == T] of [dirtyPrice] and [ytm_couponList]. *)
Definition on_coupon (b : self) : bool := Qeq_bool (t b) (T b).

(** Lines 67-77: [(pmt)/ y * (1 - 1/(1+y)**n) + fv/ (1+y)**n]; [1/(1+y)**n]
    raises when [1 + y = 0] and [n <> 0]. *)
Definition simplePrice_value (b : self) : R :=
  (pmt b / y b * (1 - 1 / powerRZ (1 + y b) (n b)) + fv b / powerRZ (1 + y b) (n b))%R.

Definition simplePrice (b : self) : outcome R :=
  if Req_EM_T (1 + y b) 0
  then (if (n b =? 0)%Z then Returns (simplePrice_value b)
        else Raises ZeroDivisionError)
  else Returns (simplePrice_value b).

(** Line 160, the closed form of the stub branch. *)
Definition dirty_stub (b : self) : R :=
  ((pmt b / y b * (1 - (1 / powerRZ (1 + y b) (n b))) + fv b / powerRZ (1 + y b) (n b))
   * float_pow (1 + y b) (stub b))%R.

(** Lines 134-163.  On [t == T] the body calls the bare name
    [simplePrice()], which is not bound in the module (the method is
    [self.simplePrice]). *)
Definition dirtyPrice (b : self) : outcome (R * R * R) :=
  if on_coupon b then Raises NameError
  else
    let result :=
      let dirtyPrice := dirty_stub b in
      let accruedInterest := (pmt b * stub b)%R in
      let cleanPrice := (dirtyPrice - accruedInterest)%R in
      (dirtyPrice, accruedInterest, cleanPrice) in
    if Req_EM_T (1 + y b) 0
    then (if (n b =? 0)%Z then Returns result else Raises ZeroDivisionError)
    else Returns result.

(** Lines 167-182: returns the residual itself (a function of the rate
    [x]), not a rate. *)
Definition ytm_couponList (b : self) (price : R) : R -> R :=
  let N := periods (n b) in
  if on_coupon b
  then fun x => (py_sum (map (fun i => pmt b / (1 + x) ^ i) N)
                 + fv b / powerRZ (1 + x) (n b) - price)%R
  else fun x => (py_sum (map (fun i => pmt b / float_pow (1 + x) (INR i - stub b)) N)
                 + fv b / float_pow (1 + x) (IZR (n b) - stub b) - price)%R.

End FixedRateBond.

(** ** [class BondInfo] (bonds/variablerate_bond.py)

    The coupon rates [ac] are a series, one rate per period ("all coupon
    payments must be in list/array/series format"); [np.array(ac)] makes the
    derived [c], [apmt], [pmt] arrays of the same length, indexed from 0. *)

Module BondInfo.

Record self : Type := mkSelf {
  tDate : date;
  mDate : date;
  fv : R;
  ac : list R;
  c : list R;
  ytm : R;
  y : R;
  apmt : list R;
  pmt : list R;
  freq : Z;
  n : Z;
  t : Q;
  T : Q;
  calendarDays : Z
}.

Definition calendar_360 (tDate mDate : date) (freq : Z) : outcome (Z * Q * Q) :=
  DayCount.calendar_360 tDate mDate freq.

(** Lines 20-66. *)
Definition __init__ (tDate mDate : date) (fv : R) (ac : list R) (freq : Z)
    (ytm : R) (calendarDays : Z) : outcome self :=
  let ac := map (fun a => a / 100)%R ac in
  let c := map (fun a => a / IZR freq)%R ac in
  let ytm := (ytm / 100)%R in
  if (freq =? 0)%Z then Raises ZeroDivisionError
  else
    let y := (ytm / IZR freq)%R in
    let apmt := map (fun a => a * fv)%R ac in
    let pmt := map (fun a => a / IZR freq)%R apmt in
    period <- (if (calendarDays =? 360)%Z
               then calendar_360 tDate mDate freq
               else Raises UnboundLocalError) ;;
    let '(n, T, t) := period in
    Returns (mkSelf tDate mDate fv ac c ytm y apmt pmt freq n t T calendarDays).

Definition stub (b : self) : R := (Q2R (t b) / Q2R (T b))%R.

Definition on_coupon (b : self) : bool := Qeq_bool (t b) (T b).

(** Lines 161-162: [sum([pmt/(1+y)**(i) for pmt,i in zip(pmt,N)]) + fv/(1+y)**(n)]. *)
Definition dirty_on_coupon (b : self) (x : R) : R :=
  (py_sum (map (fun '(pmt, i) => pmt / (1 + x) ^ i) (combine (pmt b) (periods (n b))))
   + fv b / powerRZ (1 + x) (n b))%R.

(** Lines 166-167: [sum([pmt/(1+y)**(i-t/T) for pmt,i in zip(pmt,N)]) + fv/(1+y)**(n-t/T)]. *)
Definition dirty_stub (b : self) (x : R) : R :=
  (py_sum (map (fun '(pmt, i) => pmt / float_pow (1 + x) (INR i - stub b))
               (combine (pmt b) (periods (n b))))
   + fv b / float_pow (1 + x) (IZR (n b) - stub b))%R.

(** Lines 138-171.  [fv/(1+y)**...] divides Python numbers and raises when
    the power is zero, that is when [1 + y = 0] and the exponent is not;
    [pmt[1]] is the second entry of the array and raises when there is
    none. *)
Definition dirtyPrice (b : self) : outcome (R * R * R) :=
  if on_coupon b then
    let result :=
      let dirtyPrice := dirty_on_coupon b (y b) in
      let accruedInterest := 0%R in
      let cleanPrice := (dirtyPrice - accruedInterest)%R in
      (dirtyPrice, accruedInterest, cleanPrice) in
    if Req_EM_T (1 + y b) 0
    then (if (n b =? 0)%Z then Returns result else Raises ZeroDivisionError)
    else Returns result
  else
    dirtyPrice <-
      (if Req_EM_T (1 + y b) 0
       then (if Req_EM_T (IZR (n b) - stub b) 0
             then Returns (dirty_stub b (y b)) else Raises ZeroDivisionError)
       else Returns (dirty_stub b (y b))) ;;
    match nth_error (pmt b) 1 with
    | None => Raises IndexError
    | Some pmt1 =>
        let accruedInterest := (pmt1 * stub b)%R in
        let cleanPrice := (dirtyPrice - accruedInterest)%R in
        Returns (dirtyPrice, accruedInterest, cleanPrice)
    end.

(** Lines 186-189: the residual handed to the solver. *)
Definition equation (b : self) (price : R) : R -> R :=
  if on_coupon b
  then fun x => (dirty_on_coupon b x - price)%R
  else fun x => (dirty_stub b x - price)%R.

(** Lines 175-190: [newton(equation, x0=0.05, maxiter=1000) * freq]; the
    parameter [guess] is not used by the body. *)
Definition ytm_couponList (newton : solver) (b : self) (price : R) : outcome R :=
  x <- newton (equation b price) (5 / 100)%R 1000%nat ;;
  Returns (x * IZR (freq b))%R.

(** Lines 71-81: [(pmt)/ y * (1 - 1/(1+y)**n) + fv/ (1+y)**n] with [pmt] an
    array: numpy applies the formula to each entry and the result is an
    array of the same length.  [1/(1+y)**n] is computed on Python floats
    and raises when [1 + y = 0] and [n <> 0]. *)
Definition simplePrice_values (b : self) : list R :=
  map (fun pmt => pmt / y b * (1 - 1 / powerRZ (1 + y b) (n b))
                  + fv b / powerRZ (1 + y b) (n b))%R (pmt b).

Definition simplePrice (b : self) : outcome (list R) :=
  if Req_EM_T (1 + y b) 0
  then (if (n b =? 0)%Z then Returns (simplePrice_values b)
        else Raises ZeroDivisionError)
  else Returns (simplePrice_values b).

End BondInfo.

(** ** [fixed_income/bondmath.py]

    [IRR] reads two names its module never binds: [price] (lines 18, 19, 23)
    and [np] (line 26).  Python looks such names up among the module's
    globals when the line runs, so the globals are an argument here:
    [g_price = None] and [g_np = false] is the module as it is imported;
    a caller that assigns [bondmath.price] and [bondmath.np] gives the
    other values.  [cash_flows] holds Python floats, [N] the period numbers. *)

Module bondmath.

Record globals : Type := mkGlobals { g_price : option R; g_np : bool }.

Definition as_imported : globals := mkGlobals None false.

(** Line 23. *)
Definition equation (price : R) (cash_flows : list R) (N : list Z) : R -> R :=
  fun y => (py_sum (map (fun '(pmt, n) => pmt / powerRZ (1 + y) n) (combine cash_flows N))
            - price)%R.

(** Lines 11-26. *)
Definition IRR (G : globals) (newton : solver) (cash_flows : list R) (N : list Z)
    (estimate : R) : outcome pyfloat :=
  match cash_flows with
  | [] => Raises IndexError
  | cf0 :: _ =>
      match g_price G with
      | None => Raises NameError
      | Some price =>
          if Req_EM_T price 0 then Raises ZeroDivisionError
          else
            let estimate2 := (cf0 / price)%R in
            let estimate := if Rlt_dec estimate2 price then estimate2 else estimate in
            match newton (equation price cash_flows N) estimate 300%nat with
            | Returns root => Returns (Num root)
            | Raises RuntimeError =>
                if g_np G then Returns NaN else Raises NameError
            | Raises e => Raises e
            end
      end
  end.

End bondmath.

(** ** The formulas of the specification

    Written from the specification's sentences, to be compared with the
    definitions above. *)

Module Spec.

Definition last_of_february (d : date) : bool :=
  ((month d =? 2) && (day d =? monthrange_days (year d) (month d)))%Z.

(** Day normalisation in the specification's words: last day of February
    becomes 30; maturity day 31 becomes 30 when the transaction day is 30
    or 31; any day above 30 becomes 30. *)
Definition claimed_days (tD mD : date) : Z * Z :=
  let td := if last_of_february tD then 30%Z else day tD in
  let md := if last_of_february mD then 30%Z else day mD in
  let md := if (((td =? 30) || (td =? 31)) && (md =? 31))%Z then 30%Z else md in
  (Z.min td 30, Z.min md 30).

(** The same with the last rule applied to the transaction day only: a
    maturity day 31 stays 31 unless the normalised transaction day is 30. *)
Definition bond_basis_days (tD mD : date) : Z * Z :=
  let td := if last_of_february tD then 30%Z else Z.min (day tD) 30 in
  let md := if last_of_february mD then 30%Z
            else if ((day mD =? 31) && (td =? 30))%Z then 30%Z else day mD in
  (td, md).

Definition nDays (days : Z * Z) (tD mD : date) : Z :=
  (360 * (year mD - year tD) + 30 * (month mD - month tD) + (snd days - fst days))%Z.

(** [a mod b] for a positive real modulus: the remainder in [[0, b)]. *)
Definition real_mod (a b : Q) : Q := (a - inject_Z (Qfloor (a / b)) * b)%Q.

(** [n = ceil(nDays/360*frequency)], [T = 360/frequency],
    [t = T - (nDays mod T)]. *)
Definition period (nDays : Z) (frequency : Z) : Z * Q * Q :=
  let T := (360 / inject_Z frequency)%Q in
  (Qceiling (inject_Z nDays / 360 * inject_Z frequency)%Q,
   T,
   (T - real_mod (inject_Z nDays) T)%Q).

Definition claimed_period (tD mD : date) (frequency : Z) : Z * Q * Q :=
  period (nDays (claimed_days tD mD) tD mD) frequency.

Definition bond_basis_period (tD mD : date) (frequency : Z) : Z * Q * Q :=
  period (nDays (bond_basis_days tD mD) tD mD) frequency.

(** The computation returns the period [p]. *)
Definition returns_period (o : outcome (Z * Q * Q)) (p : Z * Q * Q) : Prop :=
  match o, p with
  | Returns (n, T, t), (n', T', t') => n = n' /\ (T == T')%Q /\ (t == t')%Q
  | Raises _, _ => False
  end.

(** Cash flow of period [i] of [n]: the coupon, plus the face value on the
    last one.  [coupon i] is the coupon of period [i] (from 1). *)
Definition amount (coupon : nat -> R) (faceValue : R) (n i : nat) : R :=
  if (i =? n)%nat then (coupon i + faceValue)%R else coupon i.

Fixpoint big_sum (f : nat -> R) (n : nat) : R :=
  match n with
  | O => 0%R
  | S k => (big_sum f k + f (S k))%R
  end.

(** [sum_{i=1..n} amount_i / (1+y)^i]. *)
Definition on_coupon_dirty (amount : nat -> R) (n : nat) (y : R) : R :=
  big_sum (fun i => amount i / (1 + y) ^ i)%R n.

(** [sum_{i=1..n} amount_i / (1+y)^(i - t/T)], [s] the stub fraction [t/T]. *)
Definition summation_dirty (amount : nat -> R) (n : nat) (y s : R) : R :=
  big_sum (fun i => amount i / Rpower (1 + y) (INR i - s))%R n.

(** [(pmt/y * (1 - (1+y)^-n) + fv*(1+y)^-n) * (1+y)^(t/T)]. *)
Definition closed_form_dirty (pmt fv : R) (n : nat) (y s : R) : R :=
  ((pmt / y * (1 - / (1 + y) ^ n) + fv * / (1 + y) ^ n) * Rpower (1 + y) s)%R.

End Spec.

(** ** Bonds on the same constant-coupon inputs

    A [FixedRateBond] with coupon [pmt] per period and a [BondInfo] whose
    series repeats [pmt] over at least the [n] periods, with the same face
    value, period count, yield and stub fraction. *)

Definition constant_coupon_pair (bf : FixedRateBond.self) (bv : BondInfo.self)
    (pmt fv : R) (n : nat) (y s : R) : Prop :=
  FixedRateBond.pmt bf = pmt /\ FixedRateBond.fv bf = fv /\
  FixedRateBond.n bf = Z.of_nat n /\ FixedRateBond.y bf = y /\
  FixedRateBond.stub bf = s /\
  (exists k, (n <= k)%nat /\ BondInfo.pmt bv = repeat pmt k) /\
  BondInfo.fv bv = fv /\ BondInfo.n bv = Z.of_nat n /\ BondInfo.y bv = y /\
  BondInfo.stub bv = s.

(** The dirty price [BondInfo.dirtyPrice] computes at the rate [x], by the
    branch the bond selects; [BondInfo.equation b price x] is this minus
    [price]. *)
Definition discounted (b : BondInfo.self) (x : R) : R :=
  if BondInfo.on_coupon b then BondInfo.dirty_on_coupon b x else BondInfo.dirty_stub b x.

(** The series bond with the coupon of a fixed-rate bond repeated over its
    [n] periods, as the script of [variablerate_bond.py] builds it
    ([ac = pd.Series([8] * 20)]). *)
Definition as_series (b : FixedRateBond.self) : BondInfo.self :=
  let k := Z.to_nat (FixedRateBond.n b) in
  BondInfo.mkSelf (FixedRateBond.tDate b) (FixedRateBond.mDate b) (FixedRateBond.fv b)
    (repeat (FixedRateBond.ac b) k) (repeat (FixedRateBond.c b) k)
    (FixedRateBond.ytm b) (FixedRateBond.y b)
    (repeat (FixedRateBond.apmt b) k) (repeat (FixedRateBond.pmt b) k)
    (FixedRateBond.freq b) (FixedRateBond.n b) (FixedRateBond.t b) (FixedRateBond.T b)
    (FixedRateBond.calendarDays b).

(** The payments of a series bond as [IRR] takes them, "payments arising
    from coupons and par": the coupon of each of the [n] periods, the face
    value added to the last. *)
Definition cash_flows_of (b : BondInfo.self) : list R :=
  map (Spec.amount (fun i => nth (i - 1) (BondInfo.pmt b) 0%R) (BondInfo.fv b)
                   (Z.to_nat (BondInfo.n b)))
      (periods (BondInfo.n b)).

(** The period numbers [1 .. n] as [IRR] takes them. *)
Definition period_numbers (b : BondInfo.self) : list Z :=
  map Z.of_nat (periods (BondInfo.n b)).

(** Solvers for the examples: one that hands back a given root, one that
    never converges. *)
Definition exact_solver (root : R) : solver := fun _ _ _ => Returns root.

Definition diverging_solver : solver := fun _ _ _ => Raises RuntimeError.

(** The coupon frequencies for which [360 / freq] is a whole number of days
    and the binary64 results below are checked: annual, semi-annual, three
    and four times a year, every two months, monthly. *)
Definition standard_frequencies : list Z := [1; 2; 3; 4; 6; 12]%Z.

(** The largest 30/360 day count of two dates at most a hundred years
    apart. *)
Definition century_days : Z := 36360%Z.

(** [p] holds of [z], [z - 1], ..., [z - k]. *)
Fixpoint all_upto (p : Z -> bool) (k : nat) (z : Z) : bool :=
  match k with
  | O => p z
  | S k' => p z && all_upto p k' (z - 1)
  end.

(** [p] holds of every day count [0 .. hi]. *)
Definition all_days (p : Z -> bool) (hi : Z) : bool := all_upto p (Z.to_nat hi) hi.

(** For a frequency that divides 360: on the day count [nd] the binary64
    computation returns the period count [ceil(nd * freq / 360)], the whole
    numbers of days [T = 360 / freq] and [t = T - nd mod T], and its test
    [t == T] is true exactly when [T] divides [nd]. *)
Definition float_period_exact (freq nd : Z) : bool :=
  match DayCountFloat.period_of_days nd freq with
  | Some (Returns (n, T, t)) =>
      let Tz := (360 / freq)%Z in
      ((n =? - ((- (nd * freq)) / 360))%Z
       && Binary64.is_integer T Tz
       && Binary64.is_integer t (Tz - nd mod Tz)%Z
       && Bool.eqb (PrimFloat.eqb t T) (nd mod Tz =? 0)%Z)%bool
  | _ => false
  end.

(** ** The range of the binary64 prices

    Prices are modelled over the reals.  On binary64 the code's powers
    overflow ([OverflowError]) or underflow to [0.0] (and the division by
    them raises [ZeroDivisionError]) once [(1+y)**n] leaves the float range,
    and the closed form [pmt/y * (1 - 1/(1+y)**n)] loses its digits to
    cancellation as [y] approaches 0.  Statements about the value that a
    pricing call returns are made within the ranges below, where neither
    happens and the float result is the real one up to rounding. *)

(** An amount of at most [10^9] in absolute value. *)
Definition moderate (x : R) : Prop := (- 1000000000 <= x <= 1000000000)%R.

(** A discount base [1 + y] between [1/2] and [2] in absolute value. *)
Definition discount_base (q : R) : Prop :=
  (1 / 2 <= q <= 2 \/ - 2 <= q <= - (1 / 2))%R.

(** A series bond of at most 500 periods, with such a base and amounts. *)
Definition series_range (b : BondInfo.self) : Prop :=
  (0 <= BondInfo.n b <= 500)%Z /\ discount_base (1 + BondInfo.y b) /\
  moderate (BondInfo.fv b) /\ Forall moderate (BondInfo.pmt b).

(** The closed form: [1] to [500] periods, a base between [1/2] and [2],
    a yield of at least [1/1000] in absolute value, moderate amounts. *)
Definition closed_form_range (n : Z) (y fv pmt : R) : Prop :=
  (1 <= n <= 500)%Z /\ (1 / 2 <= 1 + y <= 2)%R /\
  (y <= - (1 / 1000) \/ 1 / 1000 <= y)%R /\ moderate fv /\ moderate pmt.

(** ** Inputs used in the examples below *)

Module Examples.

(** The dates of the scripts' [__main__] blocks: 14/02/2011 to 15/11/2020. *)
Definition d_2011_02_14 : date := mkDate 2011 2 14.
Definition d_2020_11_15 : date := mkDate 2020 11 15.

(** A maturity on the 31st with a transaction day below 30. *)
Definition d_2011_01_15 : date := mkDate 2011 1 15.
Definition d_2011_03_31 : date := mkDate 2011 3 31.

(** Whole numbers of half-years before 15/11/2020. *)
Definition d_2010_11_15 : date := mkDate 2010 11 15.
Definition d_2019_05_15 : date := mkDate 2019 5 15.
Definition d_2019_11_15 : date := mkDate 2019 11 15.

(** Nine months and a day before 15/11/2020. *)
Definition d_2020_02_14 : date := mkDate 2020 2 14.

(** The bonds of the two [__main__] blocks (the fixed-rate one is given
    [ytm=8] here as well, its script passes none):
    [FixedRateBond(tDate='14/02/2011', mDate='15/11/2020', fv=100, ac=8,
    freq=2, ytm=8, calendarDays=360)] and the [BondInfo] with
    [ac=pd.Series([8] * 20)]. *)
Definition script_fixed : FixedRateBond.self :=
  FixedRateBond.mkSelf d_2011_02_14 d_2020_11_15 100 (8 / 100) (8 / 100 / 2)
    (8 / 100) (8 / 100 / 2) (8 / 100 * 100) (8 / 100 * 100 / 2) 2 20
    (356 # 4) (360 # 2) 360.

Definition script_series : BondInfo.self :=
  BondInfo.mkSelf d_2011_02_14 d_2020_11_15 100
    (repeat (8 / 100)%R 20) (repeat (8 / 100 / 2)%R 20)
    (8 / 100) (8 / 100 / 2)
    (repeat (8 / 100 * 100)%R 20) (repeat (8 / 100 * 100 / 2)%R 20)
    2 20 (356 # 4) (360 # 2) 360.

(** [FixedRateBond(tDate='15/11/2010', mDate='15/11/2020', fv=100, ac=8,
    freq=2, ytm=8, calendarDays=360)]: twenty whole periods. *)
Definition on_coupon_fixed : FixedRateBond.self :=
  FixedRateBond.mkSelf d_2010_11_15 d_2020_11_15 100 (8 / 100) (8 / 100 / 2)
    (8 / 100) (8 / 100 / 2) (8 / 100 * 100) (8 / 100 * 100 / 2) 2 20
    (720 # 4) (360 # 2) 360.

(** [BondInfo(tDate='14/02/2020', mDate='15/11/2020', fv=100, ac=[6, 12],
    freq=2, ytm=8, calendarDays=360)]: two periods, 89 days into the first,
    coupons 3 then 6. *)
Definition stepped_coupons : BondInfo.self :=
  BondInfo.mkSelf d_2020_02_14 d_2020_11_15 100
    [6 / 100; 12 / 100]%R [6 / 100 / 2; 12 / 100 / 2]%R
    (8 / 100) (8 / 100 / 2)
    [6 / 100 * 100; 12 / 100 * 100]%R [6 / 100 * 100 / 2; 12 / 100 * 100 / 2]%R
    2 2 (356 # 4) (360 # 2) 360.

(** [BondInfo(tDate='14/02/2020', mDate='15/05/2020', fv=100, ac=[8],
    freq=2, ytm=8, calendarDays=360)]: one period, one coupon. *)
Definition d_2020_05_15 : date := mkDate 2020 5 15.
Definition single_coupon : BondInfo.self :=
  BondInfo.mkSelf d_2020_02_14 d_2020_05_15 100
    [8 / 100]%R [8 / 100 / 2]%R (8 / 100) (8 / 100 / 2)
    [8 / 100 * 100]%R [8 / 100 * 100 / 2]%R
    2 1 (356 # 4) (360 # 2) 360.


(** The same bond at [ytm=-200], per-period yield [-1]. *)
Definition yield_minus_one : BondInfo.self :=
  BondInfo.mkSelf d_2019_11_15 d_2020_11_15 100
    [8 / 100; 8 / 100]%R [8 / 100 / 2; 8 / 100 / 2]%R
    (-200 / 100) (-200 / 100 / 2)
    [8 / 100 * 100; 8 / 100 * 100]%R [8 / 100 * 100 / 2; 8 / 100 * 100 / 2]%R
    2 2 (720 # 4) (360 # 2) 360.

(** [BondInfo(tDate='15/05/2019', mDate='15/11/2020', fv=100, ac=[8, 8],
    freq=2, ytm=8, calendarDays=360)]: three periods, two coupon rates. *)
Definition short_series : BondInfo.self :=
  BondInfo.mkSelf d_2019_05_15 d_2020_11_15 100
    [8 / 100; 8 / 100]%R [8 / 100 / 2; 8 / 100 / 2]%R
    (8 / 100) (8 / 100 / 2)
    [8 / 100 * 100; 8 / 100 * 100]%R [8 / 100 * 100 / 2; 8 / 100 * 100 / 2]%R
    2 3 (720 # 4) (360 # 2) 360.

(** The script's series bond at [ytm=10] instead of [ytm=8]. *)
Definition script_series_at_10 : BondInfo.self :=
  BondInfo.mkSelf d_2011_02_14 d_2020_11_15 100
    (repeat (8 / 100)%R 20) (repeat (8 / 100 / 2)%R 20)
    (10 / 100) (10 / 100 / 2)
    (repeat (8 / 100 * 100)%R 20) (repeat (8 / 100 * 100 / 2)%R 20)
    2 20 (356 # 4) (360 # 2) 360.

(** [BondInfo(tDate='15/05/2019', mDate='15/11/2020', fv=100, ac=[8, 8, 8],
    freq=2, ytm=0, calendarDays=360)]: three periods at zero yield. *)
Definition zero_yield_series : BondInfo.self :=
  BondInfo.mkSelf d_2019_05_15 d_2020_11_15 100
    [8 / 100; 8 / 100; 8 / 100]%R [8 / 100 / 2; 8 / 100 / 2; 8 / 100 / 2]%R
    (0 / 100) (0 / 100 / 2)
    [8 / 100 * 100; 8 / 100 * 100; 8 / 100 * 100]%R
    [8 / 100 * 100 / 2; 8 / 100 * 100 / 2; 8 / 100 * 100 / 2]%R
    2 3 (720 # 4) (360 # 2) 360.

(** The last days of February 2011 and of February 2012. *)
Definition d_2011_02_28 : date := mkDate 2011 2 28.
Definition d_2012_02_29 : date := mkDate 2012 2 29.

(** 744 days under 30/360: two years and 24 days. *)
Definition d_2018_01_01 : date := mkDate 2018 1 1.
Definition d_2020_01_25 : date := mkDate 2020 1 25.


End Examples.

(** * Properties *)

Local Open Scope Z_scope.

(** ** Day count *)

Lemma py_mod_bounds (a b : Q) : (0 < b)%Q -> (0 <= py_mod a b /\ py_mod a b < b)%Q.
Proof.
  intros Hb. unfold py_mod.
  assert (Hq : (a == (a / b) * b)%Q) by (field; intro E; rewrite E in Hb; discriminate).
  pose proof (Qfloor_le (a / b)) as Hlo.
  pose proof (Qlt_floor (a / b)) as Hhi.
  rewrite inject_Z_plus in Hhi.
  change (inject_Z 1) with 1%Q in Hhi.
  set (f := inject_Z (Qfloor (a / b))) in *.
  set (q := (a / b)%Q) in *.
  split; rewrite Hq at 1; nra.
Qed.

Lemma real_mod_py_mod (a b : Q) : (Spec.real_mod a b == py_mod a b)%Q.
Proof. unfold Spec.real_mod, py_mod. ring. Qed.

Lemma period_length_pos (freq : Z) : 0 < freq -> (0 < 360 / inject_Z freq)%Q.
Proof.
  intros H. apply Qlt_shift_div_l.
  - change 0%Q with (inject_Z 0). rewrite <- Zlt_Qlt. exact H.
  - reflexivity.
Qed.

Lemma monthrange_days_le_31 (y m : Z) : monthrange_days y m <= 31.
Proof.
  unfold monthrange_days.
  destruct (m =? 2); [destruct (isleap y); lia|].
  destruct ((m =? 4) || (m =? 6) || (m =? 9) || (m =? 11)); lia.
Qed.

Lemma valid_date_day_le_31 (d : date) : valid_date d -> day d <= 31.
Proof.
  intros (_ & _ & _ & H). pose proof (monthrange_days_le_31 (year d) (month d)). lia.
Qed.

Ltac case_tests :=
  repeat match goal with
    | |- context [(?a =? ?b)%Z] => destruct (Z.eqb_spec a b)
    | |- context [(?a <? ?b)%Z] => destruct (Z.ltb_spec a b)
    end.

(** The four sequential [if]s compute the bond-basis normalisation. *)
Lemma normalize_days_bond_basis (tD mD : date) :
  day tD <= 31 ->
  DayCount.normalize_days tD mD = Spec.bond_basis_days tD mD.
Proof.
  intros Hd.
  unfold DayCount.normalize_days, Spec.bond_basis_days, Spec.last_of_february.
  destruct ((month tD =? 2) && (day tD =? monthrange_days (year tD) (month tD)));
  destruct ((month mD =? 2) && (day mD =? monthrange_days (year mD) (month mD))).
  - reflexivity.
  - cbn. destruct (Z.eqb_spec (day mD) 31); reflexivity.
  - destruct (Z.min_spec (day tD) 30) as [[? ->]|[? ->]]; case_tests; cbn; f_equal; lia.
  - destruct (Z.min_spec (day tD) 30) as [[? ->]|[? ->]]; case_tests; cbn; f_equal; lia.
Qed.

Lemma n_days_bond_basis (tD mD : date) :
  day tD <= 31 ->
  DayCount.n_days tD mD = Spec.nDays (Spec.bond_basis_days tD mD) tD mD.
Proof.
  intros Hd. unfold DayCount.n_days. rewrite (normalize_days_bond_basis tD mD Hd).
  unfold Spec.nDays. destruct (Spec.bond_basis_days tD mD). reflexivity.
Qed.

Lemma calendar_360_returns (tD mD : date) (freq : Z) :
  freq <> 0 ->
  DayCount.calendar_360 tD mD freq =
  Returns (Qceiling (inject_Z (DayCount.n_days tD mD) / 360 * inject_Z freq)%Q,
           (360 / inject_Z freq)%Q,
           (360 / inject_Z freq
            - py_mod (inject_Z (DayCount.n_days tD mD)) (360 / inject_Z freq))%Q).
Proof.
  intros H. unfold DayCount.calendar_360.
  destruct (Z.eqb_spec freq 0); [contradiction|reflexivity].
Qed.

(** In exact arithmetic, for a positive frequency, [calendar_360] returns
    [n = ceil(nDays/360*freq)], [T = 360/freq] and [t = T - (nDays mod T)],
    where [nDays] is taken over days normalised by the bond-basis rule:
    last day of February becomes 30, a transaction day above 30 becomes 30,
    and a maturity day 31 becomes 30 only when the transaction day, after
    these two rules, is 30. *)
Lemma calendar_360_exact_bond_basis_period (tD mD : date) (freq : Z) :
  valid_date tD -> valid_date mD -> date_lt tD mD -> 0 < freq ->
  Spec.returns_period (DayCount.calendar_360 tD mD freq)
                      (Spec.bond_basis_period tD mD freq).
Proof.
  intros Ht _ _ Hf.
  rewrite calendar_360_returns by lia.
  unfold Spec.bond_basis_period, Spec.period, Spec.returns_period.
  rewrite <- (n_days_bond_basis tD mD (valid_date_day_le_31 tD Ht)).
  split; [reflexivity|]. split; [reflexivity|].
  rewrite real_mod_py_mod. reflexivity.
Qed.

(** C2, counterexample.  From 15/01/2011 to 31/03/2011 at two coupons a
    year the code keeps the maturity day 31 ([nDays = 76], [t = 104]); with
    every day above 30 clamped the claim gives [nDays = 75], [t = 105]. *)
Lemma calendar_360_keeps_maturity_day_31 :
  valid_date Examples.d_2011_01_15 /\ valid_date Examples.d_2011_03_31 /\
  date_lt Examples.d_2011_01_15 Examples.d_2011_03_31 /\
  DayCount.calendar_360 Examples.d_2011_01_15 Examples.d_2011_03_31 2
    = Returns (1, (360 # 2)%Q, (416 # 4)%Q) /\
  Spec.claimed_period Examples.d_2011_01_15 Examples.d_2011_03_31 2
    = (1, (360 # 2)%Q, (420 # 4)%Q) /\
  ~ Spec.returns_period
      (DayCount.calendar_360 Examples.d_2011_01_15 Examples.d_2011_03_31 2)
      (Spec.claimed_period Examples.d_2011_01_15 Examples.d_2011_03_31 2).
Proof.
  repeat split; try (unfold valid_date; cbn; lia); try (vm_compute; reflexivity).
  - unfold date_lt; cbn; lia.
  - vm_compute. intros (_ & _ & H). discriminate H.
Qed.


(** ** The period in integer arithmetic *)

Lemma Qfloor_frac (a : Z) (b : positive) : Qfloor (a # b) = a / Zpos b.
Proof. reflexivity. Qed.

Lemma periods_as_fraction (nd freq : Z) :
  (inject_Z nd / 360 * inject_Z freq == (nd * freq) # 360)%Q.
Proof.
  unfold Qeq, Qdiv, Qmult, Qinv, inject_Z. cbn. lia.
Qed.

(** The period count in integer arithmetic: [nDays * freq / 360], rounded up. *)
Lemma period_count_Z (nd freq : Z) :
  Qceiling (inject_Z nd / 360 * inject_Z freq)%Q = - ((- (nd * freq)) / 360).
Proof.
  rewrite (Qceiling_comp _ _ (periods_as_fraction nd freq)).
  unfold Qceiling. reflexivity.
Qed.

(** The remainder in integer arithmetic: [n_days % T] is
    [((nDays * freq) mod 360) / freq]. *)
Lemma py_mod_period_Z (nd freq : Z) :
  0 < freq ->
  (py_mod (inject_Z nd) (360 / inject_Z freq) == ((nd * freq) mod 360 # 1) / inject_Z freq)%Q.
Proof.
  intros Hf. unfold py_mod.
  assert (Hq : ~ (inject_Z freq == 0)%Q).
  { unfold Qeq, inject_Z. cbn. lia. }
  assert (E : (inject_Z nd / (360 / inject_Z freq) == (nd * freq) # 360)%Q).
  { rewrite <- periods_as_fraction. field. exact Hq. }
  rewrite (Qfloor_comp _ _ E), Qfloor_frac.
  pose proof (Z.div_mod (nd * freq) 360 ltac:(lia)) as Hdm.
  assert (Em : ((nd * freq) mod 360 # 1 == inject_Z nd * inject_Z freq
                 - 360 * inject_Z (nd * freq / 360))%Q).
  { change ((nd * freq) mod 360 # 1) with (inject_Z ((nd * freq) mod 360)).
    rewrite Z.mod_eq by lia.
    unfold Zminus. rewrite inject_Z_plus, inject_Z_opp, !inject_Z_mult. reflexivity. }
  rewrite Em. field. exact Hq.
Qed.

(** Scenario 1 of the specification: 14/02/2011 to 15/11/2020, two coupons
    a year, gives [n = 20], [T = 180], [t = 89]. *)
Lemma calendar_360_script_dates :
  DayCount.n_days Examples.d_2011_02_14 Examples.d_2020_11_15 = 3511 /\
  exists T t,
    DayCount.calendar_360 Examples.d_2011_02_14 Examples.d_2020_11_15 2
      = Returns (20, T, t) /\ (T == 180)%Q /\ (t == 89)%Q.
Proof.
  split; [reflexivity|]. do 2 eexists. repeat split.
Qed.

(** ** Sums *)

Lemma fold_left_Rplus_acc (l : list R) (a : R) :
  fold_left Rplus l a = (a + fold_left Rplus l 0)%R.
Proof.
  revert a. induction l as [|x l IH]; intros a; cbn.
  - lra.
  - rewrite (IH (a + x)%R), (IH (0 + x)%R). lra.
Qed.

Lemma py_sum_nil : py_sum [] = 0%R.
Proof. reflexivity. Qed.

Lemma py_sum_cons (x : R) (l : list R) : py_sum (x :: l) = (x + py_sum l)%R.
Proof. unfold py_sum. cbn. rewrite fold_left_Rplus_acc. lra. Qed.

Lemma py_sum_app (l1 l2 : list R) : py_sum (l1 ++ l2) = (py_sum l1 + py_sum l2)%R.
Proof.
  induction l1 as [|x l1 IH]; cbn [app].
  - rewrite py_sum_nil. lra.
  - rewrite !py_sum_cons, IH. lra.
Qed.

Lemma py_sum_map_seq (f : nat -> R) (n : nat) :
  py_sum (map f (seq 1 n)) = Spec.big_sum f n.
Proof.
  induction n as [|n IH].
  - reflexivity.
  - rewrite seq_S, map_app, py_sum_app, IH. cbn [map Spec.big_sum].
    rewrite py_sum_cons, py_sum_nil. replace (1 + n)%nat with (S n) by lia. lra.
Qed.

(** [zip] stops at the shorter argument. *)
Lemma combine_seq_nth (l : list R) (a k : nat) :
  combine l (seq a k) =
  map (fun i => (nth (i - a) l 0%R, i)) (seq a (Nat.min (length l) k)).
Proof.
  revert a k. induction l as [|x l IH]; intros a k.
  - reflexivity.
  - destruct k as [|k]; [reflexivity|].
    cbn [combine seq length Nat.min map]. rewrite Nat.sub_diag. cbn [nth]. f_equal.
    rewrite IH. apply map_ext_in. intros i Hi. apply in_seq in Hi.
    replace (i - a)%nat with (S (i - S a)) by lia. reflexivity.
Qed.

Lemma big_sum_ext (f g : nat -> R) (n : nat) :
  (forall i, (1 <= i <= n)%nat -> f i = g i) -> Spec.big_sum f n = Spec.big_sum g n.
Proof.
  induction n as [|n IH]; intros H; cbn; [reflexivity|].
  rewrite IH by (intros; apply H; lia). rewrite (H (S n)) by lia. reflexivity.
Qed.

Lemma py_sum_zip_periods (l : list R) (k : nat) (g : R -> nat -> R) :
  py_sum (map (fun '(p, i) => g p i) (combine l (seq 1 k))) =
  Spec.big_sum (fun i => g (nth (i - 1) l 0%R) i) (Nat.min (length l) k).
Proof.
  rewrite combine_seq_nth, map_map. apply py_sum_map_seq.
Qed.

(** ** Construction *)

Lemma FixedRateBond_init_360 (tD mD : date) (fv ac : R) (freq : Z) (ytm : R) :
  freq <> 0 ->
  exists b,
    FixedRateBond.__init__ tD mD fv ac freq ytm 360 = Returns b /\
    FixedRateBond.fv b = fv /\
    FixedRateBond.pmt b = (ac / 100 * fv / IZR freq)%R /\
    FixedRateBond.y b = (ytm / 100 / IZR freq)%R /\
    FixedRateBond.freq b = freq /\
    DayCount.calendar_360 tD mD freq =
      Returns (FixedRateBond.n b, FixedRateBond.T b, FixedRateBond.t b).
Proof.
  intros Hf. unfold FixedRateBond.__init__, FixedRateBond.calendar_360.
  rewrite (calendar_360_returns tD mD freq Hf).
  destruct (Z.eqb_spec freq 0); [contradiction|].
  cbn. eexists. split; [reflexivity|]. cbn. repeat split.
Qed.

Lemma BondInfo_init_360 (tD mD : date) (fv : R) (ac : list R) (freq : Z) (ytm : R) :
  freq <> 0 ->
  exists b,
    BondInfo.__init__ tD mD fv ac freq ytm 360 = Returns b /\
    BondInfo.fv b = fv /\
    BondInfo.pmt b = map (fun a => a / 100 * fv / IZR freq)%R ac /\
    BondInfo.y b = (ytm / 100 / IZR freq)%R /\
    BondInfo.freq b = freq /\
    DayCount.calendar_360 tD mD freq =
      Returns (BondInfo.n b, BondInfo.T b, BondInfo.t b).
Proof.
  intros Hf. unfold BondInfo.__init__, BondInfo.calendar_360.
  rewrite (calendar_360_returns tD mD freq Hf).
  destruct (Z.eqb_spec freq 0); [contradiction|].
  cbn. eexists. split; [reflexivity|]. cbn. rewrite !map_map. repeat split.
Qed.

Lemma init_other_basis_unbound (tD mD : date) (fv acf : R) (acv : list R)
    (freq : Z) (ytm : R) (calendarDays : Z) :
  freq <> 0 -> calendarDays <> 360 ->
  FixedRateBond.__init__ tD mD fv acf freq ytm calendarDays = Raises UnboundLocalError /\
  BondInfo.__init__ tD mD fv acv freq ytm calendarDays = Raises UnboundLocalError.
Proof.
  intros Hf Hc. unfold FixedRateBond.__init__, BondInfo.__init__.
  destruct (Z.eqb_spec freq 0); [contradiction|].
  destruct (Z.eqb_spec calendarDays 360); [contradiction|].
  split; reflexivity.
Qed.

(** C9, the code at the default basis.  Built with the scripts' dates and
    [calendarDays=365] (the default, ACTUAL_365), both constructors stop at
    [self.n = n] with an [UnboundLocalError]: the branch for a basis other
    than 360 is [pass] and binds no [n], [T], [t]. *)
Theorem init_actual_365_unbound :
  FixedRateBond.__init__ Examples.d_2011_02_14 Examples.d_2020_11_15 100 8 2 8 365
    = Raises UnboundLocalError /\
  BondInfo.__init__ Examples.d_2011_02_14 Examples.d_2020_11_15 100 (repeat 8%R 20) 2 8 365
    = Raises UnboundLocalError.
Proof. split; reflexivity. Qed.

(** ** Pricing: which branch runs and what it returns *)

Lemma FixedRateBond_dirtyPrice_on_coupon (b : FixedRateBond.self) :
  FixedRateBond.on_coupon b = true -> FixedRateBond.dirtyPrice b = Raises NameError.
Proof. intros H. unfold FixedRateBond.dirtyPrice. rewrite H. reflexivity. Qed.

Lemma FixedRateBond_dirtyPrice_stub (b : FixedRateBond.self) :
  FixedRateBond.on_coupon b = false -> (1 + FixedRateBond.y b <> 0)%R ->
  FixedRateBond.dirtyPrice b =
  Returns (FixedRateBond.dirty_stub b,
           (FixedRateBond.pmt b * FixedRateBond.stub b)%R,
           (FixedRateBond.dirty_stub b - FixedRateBond.pmt b * FixedRateBond.stub b)%R).
Proof.
  intros H Hy. unfold FixedRateBond.dirtyPrice. rewrite H.
  destruct (Req_EM_T (1 + FixedRateBond.y b) 0); [contradiction|reflexivity].
Qed.

Lemma BondInfo_dirtyPrice_on_coupon (b : BondInfo.self) :
  BondInfo.on_coupon b = true -> (1 + BondInfo.y b <> 0)%R ->
  BondInfo.dirtyPrice b =
  Returns (BondInfo.dirty_on_coupon b (BondInfo.y b), 0%R,
           (BondInfo.dirty_on_coupon b (BondInfo.y b) - 0)%R).
Proof.
  intros H Hy. unfold BondInfo.dirtyPrice. rewrite H.
  destruct (Req_EM_T (1 + BondInfo.y b) 0); [contradiction|reflexivity].
Qed.

Lemma BondInfo_dirtyPrice_on_coupon_zero_base (b : BondInfo.self) :
  BondInfo.on_coupon b = true -> (1 + BondInfo.y b = 0)%R -> BondInfo.n b <> 0 ->
  BondInfo.dirtyPrice b = Raises ZeroDivisionError.
Proof.
  intros H Hy Hn. unfold BondInfo.dirtyPrice. rewrite H.
  destruct (Req_EM_T (1 + BondInfo.y b) 0); [|contradiction].
  destruct (Z.eqb_spec (BondInfo.n b) 0); [contradiction|reflexivity].
Qed.

Lemma BondInfo_dirtyPrice_stub (b : BondInfo.self) (pmt1 : R) :
  BondInfo.on_coupon b = false -> (1 + BondInfo.y b <> 0)%R ->
  nth_error (BondInfo.pmt b) 1 = Some pmt1 ->
  BondInfo.dirtyPrice b =
  Returns (BondInfo.dirty_stub b (BondInfo.y b),
           (pmt1 * BondInfo.stub b)%R,
           (BondInfo.dirty_stub b (BondInfo.y b) - pmt1 * BondInfo.stub b)%R).
Proof.
  intros H Hy Hp. unfold BondInfo.dirtyPrice. rewrite H.
  destruct (Req_EM_T (1 + BondInfo.y b) 0); [contradiction|].
  cbn [bind]. rewrite Hp. reflexivity.
Qed.

Lemma BondInfo_dirtyPrice_stub_no_second (b : BondInfo.self) :
  BondInfo.on_coupon b = false -> (1 + BondInfo.y b <> 0)%R ->
  nth_error (BondInfo.pmt b) 1 = None ->
  BondInfo.dirtyPrice b = Raises IndexError.
Proof.
  intros H Hy Hp. unfold BondInfo.dirtyPrice. rewrite H.
  destruct (Req_EM_T (1 + BondInfo.y b) 0); [contradiction|].
  cbn [bind]. rewrite Hp. reflexivity.
Qed.

(** The discounted coupons of [BondInfo.dirtyPrice]: [zip(pmt, N)] pairs the
    first [min(len(pmt), n)] coupons with the periods [1, 2, ...]. *)
Lemma BondInfo_dirty_on_coupon_sum (b : BondInfo.self) (x : R) :
  BondInfo.dirty_on_coupon b x =
  (Spec.big_sum (fun i => nth (i - 1) (BondInfo.pmt b) 0 / (1 + x) ^ i)
                (Nat.min (length (BondInfo.pmt b)) (Z.to_nat (BondInfo.n b)))
   + BondInfo.fv b / powerRZ (1 + x) (BondInfo.n b))%R.
Proof.
  unfold BondInfo.dirty_on_coupon, periods.
  rewrite (py_sum_zip_periods (BondInfo.pmt b) (Z.to_nat (BondInfo.n b))
             (fun p i => p / (1 + x) ^ i)%R).
  reflexivity.
Qed.

Lemma BondInfo_dirty_stub_sum (b : BondInfo.self) (x : R) :
  BondInfo.dirty_stub b x =
  (Spec.big_sum (fun i => nth (i - 1) (BondInfo.pmt b) 0
                          / float_pow (1 + x) (INR i - BondInfo.stub b))
                (Nat.min (length (BondInfo.pmt b)) (Z.to_nat (BondInfo.n b)))
   + BondInfo.fv b / float_pow (1 + x) (IZR (BondInfo.n b) - BondInfo.stub b))%R.
Proof.
  unfold BondInfo.dirty_stub, periods.
  rewrite (py_sum_zip_periods (BondInfo.pmt b) (Z.to_nat (BondInfo.n b))
             (fun p i => p / float_pow (1 + x) (INR i - BondInfo.stub b))%R).
  reflexivity.
Qed.

(** Adding the face value to the last cash flow, as the specification
    does, or as a separate term, as the code does. *)
Lemma big_sum_amount (coupon : nat -> R) (fv : R) (d : nat -> R) (n : nat) :
  (1 <= n)%nat ->
  Spec.big_sum (fun i => Spec.amount coupon fv n i / d i)%R n =
  (Spec.big_sum (fun i => coupon i / d i)%R n + fv / d n)%R.
Proof.
  intros Hn. destruct n as [|n]; [lia|]. cbn [Spec.big_sum].
  rewrite (big_sum_ext (fun i => Spec.amount coupon fv (S n) i / d i)%R
                       (fun i => coupon i / d i)%R n).
  - unfold Spec.amount at 1. rewrite Nat.eqb_refl. unfold Rdiv. ring.
  - intros i Hi. unfold Spec.amount.
    destruct (Nat.eqb_spec i (S n)); [lia|reflexivity].
Qed.

(** On a coupon date the series pricing function computes the
    specification's sum, provided the series covers the [n] periods. *)
Lemma BondInfo_dirtyPrice_on_coupon_spec (b : BondInfo.self) :
  BondInfo.on_coupon b = true -> (1 + BondInfo.y b <> 0)%R ->
  1 <= BondInfo.n b -> (Z.to_nat (BondInfo.n b) <= length (BondInfo.pmt b))%nat ->
  let price :=
    Spec.on_coupon_dirty
      (Spec.amount (fun i => nth (i - 1) (BondInfo.pmt b) 0%R) (BondInfo.fv b)
                   (Z.to_nat (BondInfo.n b)))
      (Z.to_nat (BondInfo.n b)) (BondInfo.y b) in
  BondInfo.dirtyPrice b = Returns (price, 0%R, price).
Proof.
  intros H Hy Hn Hlen price.
  rewrite (BondInfo_dirtyPrice_on_coupon b H Hy).
  assert (E : BondInfo.dirty_on_coupon b (BondInfo.y b) = price).
  { rewrite BondInfo_dirty_on_coupon_sum. unfold price, Spec.on_coupon_dirty.
    rewrite (big_sum_amount _ _ (fun i => (1 + BondInfo.y b) ^ i)%R) by lia.
    rewrite Nat.min_r by lia. f_equal. f_equal.
    rewrite pow_powerRZ. f_equal. lia. }
  rewrite E. f_equal. f_equal. lra.
Qed.

(** C4, the code on a coupon date.  [FixedRateBond(tDate='15/11/2010',
    mDate='15/11/2020', fv=100, ac=8, freq=2, ytm=8, calendarDays=360)] has
    [n = 20] and [t == T]; its [dirtyPrice()] returns nothing: the branch
    calls the unbound name [simplePrice] and raises [NameError]. *)
Theorem FixedRateBond_dirtyPrice_on_coupon_NameError :
  FixedRateBond.__init__ Examples.d_2010_11_15 Examples.d_2020_11_15 100 8 2 8 360
    = Returns Examples.on_coupon_fixed /\
  (FixedRateBond.t Examples.on_coupon_fixed == FixedRateBond.T Examples.on_coupon_fixed)%Q /\
  FixedRateBond.dirtyPrice Examples.on_coupon_fixed = Raises NameError.
Proof. repeat split. Qed.

Lemma stepped_coupons_stub : BondInfo.stub Examples.stepped_coupons = (89 / 180)%R.
Proof. unfold BondInfo.stub, Q2R. cbn. lra. Qed.

(** C5, the code between coupon dates.  [BondInfo(tDate='14/02/2020',
    mDate='15/11/2020', fv=100, ac=[6, 12], freq=2, ytm=8, calendarDays=360)]
    has coupons 3 (next) and 6 (the one after) and [t/T = 89/180 < 1].
    [dirtyPrice()] returns [accruedInterest = 6 * 89/180], from [pmt[1]],
    not [3 * 89/180]. *)
Theorem BondInfo_accrued_from_second_coupon :
  BondInfo.__init__ Examples.d_2020_02_14 Examples.d_2020_11_15 100 [6; 12]%R 2 8 360
    = Returns Examples.stepped_coupons /\
  (BondInfo.t Examples.stepped_coupons < BondInfo.T Examples.stepped_coupons)%Q /\
  nth_error (BondInfo.pmt Examples.stepped_coupons) 0 = Some (6 / 100 * 100 / 2)%R /\
  (exists dirty,
     BondInfo.dirtyPrice Examples.stepped_coupons
     = Returns (dirty, (6 * (89 / 180))%R, (dirty - 6 * (89 / 180))%R)) /\
  (6 * (89 / 180) <> 6 / 100 * 100 / 2 * BondInfo.stub Examples.stepped_coupons)%R.
Proof.
  split; [reflexivity|]. split; [reflexivity|]. split; [reflexivity|]. split.
  - exists (BondInfo.dirty_stub Examples.stepped_coupons
                                (BondInfo.y Examples.stepped_coupons)).
    rewrite (BondInfo_dirtyPrice_stub Examples.stepped_coupons (12 / 100 * 100 / 2)%R).
    + rewrite stepped_coupons_stub.
      replace (12 / 100 * 100 / 2 * (89 / 180))%R with (6 * (89 / 180))%R by lra.
      reflexivity.
    + reflexivity.
    + cbn. lra.
    + reflexivity.
  - rewrite stepped_coupons_stub. lra.
Qed.

(** With one period and a one-entry series there is no [pmt[1]] at all. *)
Lemma BondInfo_single_coupon_IndexError :
  BondInfo.__init__ Examples.d_2020_02_14 Examples.d_2020_05_15 100 [8]%R 2 8 360
    = Returns Examples.single_coupon /\
  BondInfo.n Examples.single_coupon = 1 /\
  BondInfo.dirtyPrice Examples.single_coupon = Raises IndexError.
Proof.
  split; [reflexivity|]. split; [reflexivity|].
  apply BondInfo_dirtyPrice_stub_no_second; [reflexivity| cbn; lra |reflexivity].
Qed.

(** A positive base: the power is [exp (e * ln q)]. *)
Lemma float_pow_pos (q e : R) : (0 < q)%R -> float_pow q e = Rpower q e.
Proof.
  intros Hq. unfold float_pow. destruct (Req_EM_T q 0); [lra|reflexivity].
Qed.

(** ** No yield guard *)

(** Between coupon dates, a remainder [t <= T] with [T > 0] makes the stub
    fraction [t/T] less than 1. *)
Lemma stub_below_one (b : BondInfo.self) :
  (0 < BondInfo.T b)%Q -> (BondInfo.t b <= BondInfo.T b)%Q ->
  BondInfo.on_coupon b = false -> (BondInfo.stub b < 1)%R.
Proof.
  intros HT Ht Hc. unfold BondInfo.on_coupon in Hc. apply Qeq_bool_neq in Hc.
  assert (Hlt : (BondInfo.t b < BondInfo.T b)%Q).
  { destruct (Qlt_le_dec (BondInfo.t b) (BondInfo.T b)) as [H|H]; [exact H|].
    exfalso. apply Hc. apply Qle_antisym; assumption. }
  apply Qlt_Rlt in Hlt. apply Qlt_Rlt in HT. rewrite RMicromega.Q2R_0 in HT.
  unfold BondInfo.stub. apply Rmult_lt_reg_r with (Q2R (BondInfo.T b)); [exact HT|].
  unfold Rdiv. rewrite Rmult_assoc, Rinv_l by lra. lra.
Qed.


(** With [ytm=-200], that is [y = -1], the call does fail, but inside the
    discount formula: [fv/(1+y)**(n)] divides by zero. *)
Lemma BondInfo_dirtyPrice_yield_minus_one :
  BondInfo.__init__ Examples.d_2019_11_15 Examples.d_2020_11_15 100 [8; 8]%R 2 (-200) 360
    = Returns Examples.yield_minus_one /\
  BondInfo.y Examples.yield_minus_one = (-1)%R /\
  BondInfo.dirtyPrice Examples.yield_minus_one = Raises ZeroDivisionError.
Proof.
  split; [reflexivity|]. split; [cbn; lra|].
  apply BondInfo_dirtyPrice_on_coupon_zero_base; [reflexivity|cbn; lra|cbn; lia].
Qed.



Lemma discount_base_nonzero (q : R) : discount_base q -> q <> 0%R.
Proof. intros [H|H]; lra. Qed.




(** ** No length check on the coupon series *)

(** C8, counterexample.  [BondInfo(tDate='15/05/2019', mDate='15/11/2020',
    fv=100, ac=[8, 8], freq=2, ytm=8, calendarDays=360)] has [n = 3] periods
    and a series of two rates.  Construction succeeds and [dirtyPrice()]
    returns the price of the truncated schedule: two coupons of 4 and the
    face value at period 3. *)
Lemma BondInfo_short_series_accepted :
  BondInfo.__init__ Examples.d_2019_05_15 Examples.d_2020_11_15 100 [8; 8]%R 2 8 360
    = Returns Examples.short_series /\
  BondInfo.n Examples.short_series = 3 /\
  length (BondInfo.pmt Examples.short_series) = 2%nat /\
  (exists price,
     BondInfo.dirtyPrice Examples.short_series = Returns (price, 0%R, price) /\
     price = (4 / (1 + 4 / 100) + 4 / (1 + 4 / 100) ^ 2 + 100 / (1 + 4 / 100) ^ 3)%R) /\
  ~ fails (BondInfo.dirtyPrice Examples.short_series).
Proof.
  assert (D : BondInfo.dirty_on_coupon Examples.short_series
                (BondInfo.y Examples.short_series)
              = (4 / (1 + 4 / 100) + 4 / (1 + 4 / 100) ^ 2 + 100 / (1 + 4 / 100) ^ 3)%R).
  { rewrite BondInfo_dirty_on_coupon_sum.
    change (Z.to_nat (BondInfo.n Examples.short_series)) with 3%nat.
    change (BondInfo.n Examples.short_series) with (Z.of_nat 3).
    rewrite <- pow_powerRZ. cbn.
    replace (1 + 8 / 100 / 2)%R with (1 + 4 / 100)%R by lra. field. }
  assert (E : BondInfo.dirtyPrice Examples.short_series
              = Returns (BondInfo.dirty_on_coupon Examples.short_series
                           (BondInfo.y Examples.short_series), 0%R,
                         BondInfo.dirty_on_coupon Examples.short_series
                           (BondInfo.y Examples.short_series))).
  { rewrite BondInfo_dirtyPrice_on_coupon; [|reflexivity|cbn; lra].
    do 2 f_equal. lra. }
  split; [reflexivity|]. split; [reflexivity|]. split; [reflexivity|]. split.
  - eexists. split; [exact E|exact D].
  - intros [e He]. rewrite E in He. discriminate He.
Qed.

(** C8, as amended.  Building a bond from a coupon series checks no length
    and raises no [ConfigurationError]: construction returns a bond for a
    series of any length (30/360, a standard frequency, dates at most a
    hundred years apart).  Pricing, within the binary64 range, discounts
    the first [min(len(series), n)] coupons and then the face value at
    period [n]: on a coupon date it returns that truncated price; between
    coupon dates it returns it when the series has at least two entries and
    raises [IndexError] (from [pmt[1]]) when it has fewer. *)
Theorem BondInfo_short_series_priced (tD mD : date) (fv : R) (ac : list R)
    (freq : Z) (ytm : R) :
  valid_date tD -> valid_date mD -> date_lt tD mD -> year mD - year tD <= 100 ->
  In freq standard_frequencies ->
  exists b,
    BondInfo.__init__ tD mD fv ac freq ytm 360 = Returns b /\
    BondInfo.pmt b = map (fun a => a / 100 * fv / IZR freq)%R ac /\
    (series_range b -> BondInfo.on_coupon b = true ->
     exists price,
       BondInfo.dirtyPrice b = Returns (price, 0%R, (price - 0)%R) /\
       price =
       (Spec.big_sum (fun i => nth (i - 1) (BondInfo.pmt b) 0 / (1 + BondInfo.y b) ^ i)
                     (Nat.min (length ac) (Z.to_nat (BondInfo.n b)))
        + fv / powerRZ (1 + BondInfo.y b) (BondInfo.n b))%R) /\
    (series_range b -> (0 < 1 + BondInfo.y b)%R -> BondInfo.on_coupon b = false ->
     (2 <= length ac)%nat ->
     exists price accrued,
       BondInfo.dirtyPrice b = Returns (price, accrued, (price - accrued)%R) /\
       price =
       (Spec.big_sum (fun i => nth (i - 1) (BondInfo.pmt b) 0
                               / Rpower (1 + BondInfo.y b) (INR i - BondInfo.stub b))
                     (Nat.min (length ac) (Z.to_nat (BondInfo.n b)))
        + fv / Rpower (1 + BondInfo.y b) (IZR (BondInfo.n b) - BondInfo.stub b))%R) /\
    (series_range b -> (0 < 1 + BondInfo.y b)%R -> BondInfo.on_coupon b = false ->
     (length ac < 2)%nat ->
     BondInfo.dirtyPrice b = Raises IndexError).
Proof.
  intros _ _ _ _ Hin.
  assert (Hf : freq <> 0).
  { cbn in Hin. destruct Hin as [<-|[<-|[<-|[<-|[<-|[<-|[]]]]]]]; lia. }
  destruct (BondInfo_init_360 tD mD fv ac freq ytm Hf) as (b & Hb & Hfv & Hp & _).
  exists b. split; [exact Hb|]. split; [exact Hp|].
  assert (Hl : length (BondInfo.pmt b) = length ac) by (rewrite Hp; apply length_map).
  split; [|split].
  - intros (_ & Hq & _) Hc. eexists. split.
    + apply BondInfo_dirtyPrice_on_coupon; [exact Hc|apply discount_base_nonzero; exact Hq].
    + rewrite BondInfo_dirty_on_coupon_sum, Hl, Hfv. reflexivity.
  - intros _ Hq Hc Hlen.
    destruct (nth_error (BondInfo.pmt b) 1) as [p1|] eqn:E.
    + do 2 eexists. split.
      * apply (BondInfo_dirtyPrice_stub b p1 Hc); [lra|exact E].
      * rewrite BondInfo_dirty_stub_sum, Hl, Hfv, float_pow_pos by exact Hq.
        f_equal. apply big_sum_ext. intros i _.
        rewrite float_pow_pos by exact Hq. reflexivity.
    + apply nth_error_None in E. lia.
  - intros _ Hq Hc Hlen.
    apply BondInfo_dirtyPrice_stub_no_second; [exact Hc|lra|].
    apply nth_error_None. lia.
Qed.

Lemma short_series_in_range : series_range Examples.short_series.
Proof.
  unfold series_range, discount_base, moderate. cbn.
  split; [lia|]. split; [left; lra|]. split; [lra|].
  repeat (constructor; [lra|]). constructor.
Qed.

Lemma BondInfo_short_series_priced_witness :
  exists price,
    BondInfo.dirtyPrice Examples.short_series = Returns (price, 0%R, (price - 0)%R) /\
    price =
    (Spec.big_sum (fun i => nth (i - 1) (BondInfo.pmt Examples.short_series) 0
                            / (1 + BondInfo.y Examples.short_series) ^ i)
                  (Nat.min (length [8; 8]%R) (Z.to_nat (BondInfo.n Examples.short_series)))
     + 100 / powerRZ (1 + BondInfo.y Examples.short_series)
                     (BondInfo.n Examples.short_series))%R.
Proof.
  destruct (BondInfo_short_series_priced
              Examples.d_2019_05_15 Examples.d_2020_11_15 100 [8; 8]%R 2 8)
    as (b & Hb & _ & Hon & _).
  - unfold valid_date; cbn; lia.
  - unfold valid_date; cbn; lia.
  - unfold date_lt; cbn; lia.
  - cbn; lia.
  - cbn; tauto.
  - change (BondInfo.__init__ Examples.d_2019_05_15 Examples.d_2020_11_15 100 [8; 8]%R 2 8 360)
      with (Returns Examples.short_series) in Hb.
    injection Hb as <-.
    apply Hon; [exact short_series_in_range|reflexivity].
Defined.

(** ** Closed form and summation *)

Lemma Rpower_pos (q e : R) : (0 < Rpower q e)%R.
Proof. unfold Rpower. apply exp_pos. Qed.

(** [(1+y)**(i - t/T)] splits into the whole periods and the stub. *)
Lemma Rpower_period_minus_stub (q s : R) (i : nat) :
  (0 < q)%R -> Rpower q (INR i - s) = (q ^ i / Rpower q s)%R.
Proof.
  intros Hq. unfold Rminus. rewrite Rpower_plus, Rpower_Ropp, Rpower_pow by exact Hq.
  reflexivity.
Qed.

Lemma div_Rpower_period_minus_stub (a q s : R) (i : nat) :
  (0 < q)%R -> (a / Rpower q (INR i - s) = a / q ^ i * Rpower q s)%R.
Proof.
  intros Hq. rewrite Rpower_period_minus_stub by exact Hq.
  pose proof (Rpower_pos q s). pose proof (pow_lt q i Hq).
  field. split; lra.
Qed.

Lemma big_sum_scale (f : nat -> R) (c : R) (n : nat) :
  Spec.big_sum (fun i => f i * c)%R n = (Spec.big_sum f n * c)%R.
Proof. induction n as [|n IH]; cbn; [lra|rewrite IH; lra]. Qed.

(** The annuity: [sum_{i=1..n} pmt/(1+y)^i = pmt/y * (1 - 1/(1+y)^n)]. *)
Lemma annuity_sum (pmt y : R) (n : nat) :
  (y <> 0)%R -> (1 + y <> 0)%R ->
  Spec.big_sum (fun i => pmt / (1 + y) ^ i)%R n = (pmt / y * (1 - / (1 + y) ^ n))%R.
Proof.
  intros Hy Hq. induction n as [|n IH].
  - cbn. field. exact Hy.
  - cbn [Spec.big_sum]. rewrite IH.
    pose proof (pow_nonzero (1 + y) n Hq). cbn [pow]. field. repeat split; assumption.
Qed.

Lemma nth_repeat_in (a d : R) (k i : nat) : (i < k)%nat -> nth i (repeat a k) d = a.
Proof.
  revert i. induction k as [|k IH]; intros i Hi; [lia|].
  destruct i; cbn; [reflexivity|apply IH; lia].
Qed.

Lemma summation_dirty_split (pmt fv : R) (n : nat) (y s : R) :
  (1 <= n)%nat -> (0 < 1 + y)%R ->
  Spec.summation_dirty (Spec.amount (fun _ => pmt) fv n) n y s
  = ((Spec.big_sum (fun i => pmt / (1 + y) ^ i) n + fv / (1 + y) ^ n)
     * Rpower (1 + y) s)%R.
Proof.
  intros Hn Hq. unfold Spec.summation_dirty.
  rewrite (big_sum_amount (fun _ => pmt) fv (fun i => Rpower (1 + y) (INR i - s)) n Hn).
  rewrite (big_sum_ext _ (fun i => pmt / (1 + y) ^ i * Rpower (1 + y) s)%R)
    by (intros; apply div_Rpower_period_minus_stub; exact Hq).
  rewrite big_sum_scale, div_Rpower_period_minus_stub by exact Hq. ring.
Qed.

Lemma closed_form_dirty_summation (pmt fv : R) (n : nat) (y s : R) :
  (1 <= n)%nat -> (0 < 1 + y)%R -> (y <> 0)%R ->
  Spec.closed_form_dirty pmt fv n y s
  = Spec.summation_dirty (Spec.amount (fun _ => pmt) fv n) n y s.
Proof.
  intros Hn Hq Hy0.
  rewrite summation_dirty_split, annuity_sum by (assumption || lra).
  unfold Spec.closed_form_dirty, Rdiv. ring.
Qed.

Lemma FixedRateBond_dirty_stub_closed_form (bf : FixedRateBond.self)
    (bv : BondInfo.self) (pmt fv : R) (n : nat) (y s : R) :
  constant_coupon_pair bf bv pmt fv n y s -> (0 < 1 + y)%R ->
  FixedRateBond.dirty_stub bf = Spec.closed_form_dirty pmt fv n y s.
Proof.
  intros (Hp & Hfv & Hnf & Hyf & Hsf & _) Hq.
  unfold FixedRateBond.dirty_stub, Spec.closed_form_dirty.
  rewrite Hp, Hfv, Hnf, Hyf, Hsf, <- pow_powerRZ, float_pow_pos by exact Hq.
  unfold Rdiv. ring.
Qed.

Lemma BondInfo_dirty_stub_summation (bf : FixedRateBond.self)
    (bv : BondInfo.self) (pmt fv : R) (n : nat) (y s : R) :
  constant_coupon_pair bf bv pmt fv n y s -> (1 <= n)%nat -> (0 < 1 + y)%R ->
  BondInfo.dirty_stub bv (BondInfo.y bv)
  = Spec.summation_dirty (Spec.amount (fun _ => pmt) fv n) n y s.
Proof.
  intros (_ & _ & _ & _ & _ & (k & Hk & Hpv) & Hfvv & Hnv & Hyv & Hsv) Hn Hq.
  rewrite BondInfo_dirty_stub_sum, Hpv, Hfvv, Hnv, Hyv, Hsv, repeat_length, Nat2Z.id.
  rewrite Nat.min_r by exact Hk. unfold Spec.summation_dirty.
  rewrite (big_sum_amount (fun _ => pmt) fv (fun i => Rpower (1 + y) (INR i - s)) n Hn).
  rewrite <- INR_IZR_INZ, float_pow_pos by exact Hq. f_equal.
  apply big_sum_ext. intros i Hi.
  rewrite float_pow_pos by exact Hq. rewrite nth_repeat_in by lia. reflexivity.
Qed.

Lemma script_bonds_built :
  FixedRateBond.__init__ Examples.d_2011_02_14 Examples.d_2020_11_15 100 8 2 8 360
    = Returns Examples.script_fixed /\
  BondInfo.__init__ Examples.d_2011_02_14 Examples.d_2020_11_15 100 (repeat 8%R 20) 2 8 360
    = Returns Examples.script_series.
Proof. split; reflexivity. Qed.

(** The series bond of [Examples.on_coupon_fixed]: twenty coupons of 4 at a
    yield of 4 percent per period are worth the face value. *)
Lemma on_coupon_series_at_par :
  BondInfo.dirty_on_coupon (as_series Examples.on_coupon_fixed)
    (BondInfo.y (as_series Examples.on_coupon_fixed)) = 100%R.
Proof.
  rewrite BondInfo_dirty_on_coupon_sum.
  change (BondInfo.pmt (as_series Examples.on_coupon_fixed))
    with (repeat (8 / 100 * 100 / 2)%R 20).
  change (BondInfo.n (as_series Examples.on_coupon_fixed)) with (Z.of_nat 20).
  change (BondInfo.y (as_series Examples.on_coupon_fixed)) with (8 / 100 / 2)%R.
  change (BondInfo.fv (as_series Examples.on_coupon_fixed)) with 100%R.
  rewrite repeat_length, Nat2Z.id, Nat.min_id, <- pow_powerRZ.
  rewrite (big_sum_ext _ (fun i => (8 / 100 * 100 / 2) / (1 + 8 / 100 / 2) ^ i)%R)
    by (intros i Hi; rewrite nth_repeat_in by lia; reflexivity).
  rewrite annuity_sum by lra.
  assert (Hp : ((1 + 8 / 100 / 2) ^ 20 <> 0)%R) by (apply pow_nonzero; lra).
  field; try exact Hp.
Qed.

(** C6, the code on a coupon date.  The stub fraction [t/T = 1] is in the
    claim's range, and [FixedRateBond(tDate='15/11/2010', mDate='15/11/2020',
    fv=100, ac=8, freq=2, ytm=8, calendarDays=360)] has it: the closed-form
    path, [FixedRateBond.dirtyPrice], raises [NameError], while the
    summation path, [BondInfo.dirtyPrice] on the same inputs with the coupon
    rate repeated over the twenty periods, returns the price 100.  The two
    paths do not agree. *)
Theorem pricing_paths_disagree_on_coupon_date :
  FixedRateBond.__init__ Examples.d_2010_11_15 Examples.d_2020_11_15 100 8 2 8 360
    = Returns Examples.on_coupon_fixed /\
  BondInfo.__init__ Examples.d_2010_11_15 Examples.d_2020_11_15 100 (repeat 8%R 20) 2 8 360
    = Returns (as_series Examples.on_coupon_fixed) /\
  FixedRateBond.stub Examples.on_coupon_fixed = 1%R /\
  BondInfo.stub (as_series Examples.on_coupon_fixed) = 1%R /\
  FixedRateBond.dirtyPrice Examples.on_coupon_fixed = Raises NameError /\
  BondInfo.dirtyPrice (as_series Examples.on_coupon_fixed) = Returns (100, 0, 100)%R.
Proof.
  assert (Hs : (Q2R (720 # 4) / Q2R (360 # 2) = 1)%R) by (unfold Q2R; cbn; lra).
  split; [reflexivity|]. split; [reflexivity|]. split; [exact Hs|]. split; [exact Hs|].
  split; [reflexivity|].
  rewrite BondInfo_dirtyPrice_on_coupon; [|reflexivity|cbn; lra].
  rewrite on_coupon_series_at_par. do 2 f_equal. lra.
Qed.

(** ** Yield solving *)

(** The stub fraction the selected branch discounts with: none on a coupon
    date. *)
Lemma discounted_Rpower (b : BondInfo.self) (x : R) :
  (0 < 1 + x)%R ->
  let s := if BondInfo.on_coupon b then 0%R else BondInfo.stub b in
  discounted b x =
  (Spec.big_sum (fun i => nth (i - 1) (BondInfo.pmt b) 0 / Rpower (1 + x) (INR i - s))
                (Nat.min (length (BondInfo.pmt b)) (Z.to_nat (BondInfo.n b)))
   + BondInfo.fv b / Rpower (1 + x) (IZR (BondInfo.n b) - s))%R.
Proof.
  intros Hq s. unfold discounted, s. destruct (BondInfo.on_coupon b).
  - rewrite BondInfo_dirty_on_coupon_sum, !Rminus_0_r, powerRZ_Rpower by exact Hq.
    f_equal. apply big_sum_ext. intros i _.
    rewrite Rminus_0_r, Rpower_pow by exact Hq. reflexivity.
  - rewrite BondInfo_dirty_stub_sum, float_pow_pos by exact Hq.
    f_equal. apply big_sum_ext. intros i _.
    rewrite float_pow_pos by exact Hq. reflexivity.
Qed.

Lemma big_sum_le (f g : nat -> R) (n : nat) :
  (forall i, (1 <= i <= n)%nat -> (f i <= g i)%R) ->
  (Spec.big_sum f n <= Spec.big_sum g n)%R.
Proof.
  induction n as [|n IH]; intros H; cbn; [lra|].
  pose proof (IH ltac:(intros; apply H; lia)). pose proof (H (S n) ltac:(lia)). lra.
Qed.

Lemma discount_le (a e q1 q2 : R) :
  (0 <= a)%R -> (0 <= e)%R -> (0 < q1 <= q2)%R ->
  (a / Rpower q2 e <= a / Rpower q1 e)%R.
Proof.
  intros Ha He Hq. unfold Rdiv. apply Rmult_le_compat_l; [exact Ha|].
  apply Rinv_le_contravar; [apply Rpower_pos|].
  apply Rle_Rpower_l; assumption.
Qed.

Lemma discount_lt (a e q1 q2 : R) :
  (0 < a)%R -> (0 < e)%R -> (0 < q1 < q2)%R ->
  (a / Rpower q2 e < a / Rpower q1 e)%R.
Proof.
  intros Ha He Hq. unfold Rdiv. apply Rmult_lt_compat_l; [exact Ha|].
  apply Rinv_0_lt_contravar; [apply Rpower_pos|].
  apply Rlt_Rpower_l; assumption.
Qed.

(** The price falls strictly as the rate rises. *)
Lemma discounted_decreasing (b : BondInfo.self) (x1 x2 : R) :
  (0 < BondInfo.fv b)%R -> Forall (fun p => 0 <= p)%R (BondInfo.pmt b) ->
  1 <= BondInfo.n b ->
  (0 < BondInfo.T b)%Q -> (BondInfo.t b <= BondInfo.T b)%Q ->
  (-1 < x1)%R -> (x1 < x2)%R ->
  (discounted b x2 < discounted b x1)%R.
Proof.
  intros Hfv Hp Hn HT Ht H1 H12.
  rewrite !discounted_Rpower by lra. cbv zeta.
  set (s := if BondInfo.on_coupon b then 0%R else BondInfo.stub b).
  assert (Hs : (s < 1)%R).
  { unfold s. destruct (BondInfo.on_coupon b) eqn:E; [lra|].
    apply stub_below_one; assumption. }
  apply Rplus_le_lt_compat.
  - apply big_sum_le. intros i Hi. apply discount_le.
    + destruct (proj1 (Forall_nth _ _) Hp (i - 1)%nat 0%R) as [H|H]; [lia| |].
      * apply Rlt_le. exact H.
      * right. exact H.
    + assert (1 <= INR i)%R by (replace 1%R with (INR 1) by reflexivity; apply le_INR; lia).
      lra.
    + lra.
  - apply discount_lt; [exact Hfv| |lra].
    assert (1 <= IZR (BondInfo.n b))%R by (apply IZR_le; exact Hn). lra.
Qed.

Lemma discounted_injective (b : BondInfo.self) (x1 x2 : R) :
  (0 < BondInfo.fv b)%R -> Forall (fun p => 0 <= p)%R (BondInfo.pmt b) ->
  1 <= BondInfo.n b ->
  (0 < BondInfo.T b)%Q -> (BondInfo.t b <= BondInfo.T b)%Q ->
  (-1 < x1)%R -> (-1 < x2)%R ->
  discounted b x1 = discounted b x2 -> x1 = x2.
Proof.
  intros Hfv Hp Hn HT Ht H1 H2 E.
  destruct (Rtotal_order x1 x2) as [H|[H|H]]; [|exact H|].
  - pose proof (discounted_decreasing b x1 x2 Hfv Hp Hn HT Ht H1 H). lra.
  - pose proof (discounted_decreasing b x2 x1 Hfv Hp Hn HT Ht H2 H). lra.
Qed.

Lemma equation_discounted (b : BondInfo.self) (price x : R) :
  BondInfo.equation b price x = (discounted b x - price)%R.
Proof. unfold BondInfo.equation, discounted. destruct (BondInfo.on_coupon b); reflexivity. Qed.

Lemma dirtyPrice_returns_discounted (b : BondInfo.self) (price accrued clean : R) :
  BondInfo.dirtyPrice b = Returns (price, accrued, clean) ->
  price = discounted b (BondInfo.y b).
Proof.
  unfold BondInfo.dirtyPrice, discounted. destruct (BondInfo.on_coupon b).
  - destruct (Req_EM_T (1 + BondInfo.y b) 0);
      [destruct (BondInfo.n b =? 0)|]; intros H; inversion H; reflexivity.
  - destruct (Req_EM_T (1 + BondInfo.y b) 0);
      [destruct (Req_EM_T (IZR (BondInfo.n b) - BondInfo.stub b) 0)|]; cbn [bind];
      try discriminate;
      destruct (nth_error (BondInfo.pmt b) 1); intros H; inversion H; reflexivity.
Qed.

(** The residual vanishes at the yield the price was computed with. *)
Lemma equation_root_at_own_yield (b : BondInfo.self) (price accrued clean : R) :
  BondInfo.dirtyPrice b = Returns (price, accrued, clean) ->
  BondInfo.equation b price (BondInfo.y b) = 0%R.
Proof.
  intros H. rewrite equation_discounted, (dirtyPrice_returns_discounted b _ _ _ H). lra.
Qed.

Lemma ytm_couponList_of_root (newton : solver) (b : BondInfo.self) (price r : R) :
  newton (BondInfo.equation b price) (5 / 100)%R 1000%nat = Returns r ->
  BondInfo.ytm_couponList newton b price = Returns (r * IZR (BondInfo.freq b))%R.
Proof. intros H. unfold BondInfo.ytm_couponList. rewrite H. reflexivity. Qed.

(** C1, as amended.  For a series bond with positive face value, no
    negative coupon, [n >= 1] and a per-period yield [y > -1]: the residual
    handed to the solver, taken at the dirty price that pricing returned,
    vanishes at [y] and at no other rate above [-1]; and whatever root [r]
    the solver returns for it, [ytm_couponList] returns [r * freq], the
    rate annualised, not the per-period rate. *)
Theorem ytm_couponList_annualizes_root (b : BondInfo.self) (price accrued clean : R) :
  (-1 < BondInfo.y b)%R ->
  (0 < BondInfo.fv b)%R -> Forall (fun p => 0 <= p)%R (BondInfo.pmt b) ->
  1 <= BondInfo.n b ->
  (0 < BondInfo.T b)%Q -> (BondInfo.t b <= BondInfo.T b)%Q ->
  BondInfo.dirtyPrice b = Returns (price, accrued, clean) ->
  BondInfo.equation b price (BondInfo.y b) = 0%R /\
  (forall x, (-1 < x)%R -> BondInfo.equation b price x = 0%R -> x = BondInfo.y b) /\
  (forall (newton : solver) (r : R),
     newton (BondInfo.equation b price) (5 / 100)%R 1000%nat = Returns r ->
     BondInfo.ytm_couponList newton b price = Returns (r * IZR (BondInfo.freq b))%R).
Proof.
  intros Hy Hfv Hp Hn HT Ht Hprice.
  split; [exact (equation_root_at_own_yield b _ _ _ Hprice)|]. split.
  - intros x Hx Hroot.
    apply (discounted_injective b); try assumption.
    rewrite equation_discounted in Hroot.
    rewrite <- (dirtyPrice_returns_discounted b _ _ _ Hprice). lra.
  - intros newton r Hnewton. exact (ytm_couponList_of_root newton b price r Hnewton).
Qed.

Lemma script_series_dirtyPrice :
  BondInfo.dirtyPrice Examples.script_series =
  Returns (BondInfo.dirty_stub Examples.script_series (BondInfo.y Examples.script_series),
           (8 / 100 * 100 / 2 * BondInfo.stub Examples.script_series)%R,
           (BondInfo.dirty_stub Examples.script_series (BondInfo.y Examples.script_series)
            - 8 / 100 * 100 / 2 * BondInfo.stub Examples.script_series)%R).
Proof.
  apply BondInfo_dirtyPrice_stub; [reflexivity| cbn; lra |reflexivity].
Qed.

Lemma ytm_couponList_annualizes_root_witness :
  BondInfo.equation Examples.script_series
    (BondInfo.dirty_stub Examples.script_series (BondInfo.y Examples.script_series))
    (BondInfo.y Examples.script_series) = 0%R /\
  (forall x, (-1 < x)%R ->
     BondInfo.equation Examples.script_series
       (BondInfo.dirty_stub Examples.script_series (BondInfo.y Examples.script_series)) x
     = 0%R ->
     x = BondInfo.y Examples.script_series) /\
  (forall (newton : solver) (r : R),
     newton (BondInfo.equation Examples.script_series
               (BondInfo.dirty_stub Examples.script_series
                  (BondInfo.y Examples.script_series)))
            (5 / 100)%R 1000%nat = Returns r ->
     BondInfo.ytm_couponList newton Examples.script_series
       (BondInfo.dirty_stub Examples.script_series (BondInfo.y Examples.script_series))
     = Returns (r * IZR (BondInfo.freq Examples.script_series))%R).
Proof.
  apply (ytm_couponList_annualizes_root Examples.script_series
           (BondInfo.dirty_stub Examples.script_series (BondInfo.y Examples.script_series))
           (8 / 100 * 100 / 2 * BondInfo.stub Examples.script_series)%R
           (BondInfo.dirty_stub Examples.script_series (BondInfo.y Examples.script_series)
            - 8 / 100 * 100 / 2 * BondInfo.stub Examples.script_series)%R).
  - cbn; lra.
  - cbn; lra.
  - cbn. repeat (constructor; [lra|]). constructor.
  - cbn; lia.
  - reflexivity.
  - cbn. unfold Qle. cbn. lia.
  - exact script_series_dirtyPrice.
Defined.

(** C1, counterexample.  The script's series bond is priced at the
    per-period yield [y = 0.04].  Handed the exact root [0.04] of the
    residual at that price, [ytm_couponList] returns [0.08 = y * freq]: it is
    off the per-period rate by [0.04]. *)
Lemma ytm_couponList_script_returns_annual_rate :
  exists price accrued clean,
    BondInfo.dirtyPrice Examples.script_series = Returns (price, accrued, clean) /\
    BondInfo.y Examples.script_series = (4 / 100)%R /\
    BondInfo.equation Examples.script_series price (4 / 100) = 0%R /\
    exact_solver (4 / 100) (BondInfo.equation Examples.script_series price)
                 (5 / 100)%R 1000%nat = Returns (4 / 100)%R /\
    BondInfo.ytm_couponList (exact_solver (4 / 100)) Examples.script_series price
    = Returns (8 / 100)%R /\
    (Rabs (8 / 100 - 4 / 100) = 4 / 100)%R.
Proof.
  do 3 eexists. split; [exact script_series_dirtyPrice|].
  split; [cbn; lra|]. split.
  - replace (4 / 100)%R with (BondInfo.y Examples.script_series) by (cbn; lra).
    exact (equation_root_at_own_yield _ _ _ _ script_series_dirtyPrice).
  - split; [reflexivity|]. split.
    + unfold BondInfo.ytm_couponList, exact_solver. cbn. f_equal. lra.
    + rewrite Rabs_right; lra.
Qed.

(** [FixedRateBond.ytm_couponList] returns the residual, not a rate;
    between coupon dates the residual at the bond's own dirty price
    vanishes at the bond's own yield. *)
Lemma FixedRateBond_residual_root (b : FixedRateBond.self) :
  FixedRateBond.on_coupon b = false -> 1 <= FixedRateBond.n b ->
  (0 < 1 + FixedRateBond.y b)%R -> (FixedRateBond.y b <> 0)%R ->
  FixedRateBond.ytm_couponList b (FixedRateBond.dirty_stub b) (FixedRateBond.y b) = 0%R.
Proof.
  intros Hc Hn Hq Hy0. unfold FixedRateBond.ytm_couponList. rewrite Hc.
  unfold periods. rewrite py_sum_map_seq.
  set (n := Z.to_nat (FixedRateBond.n b)).
  assert (En : FixedRateBond.n b = Z.of_nat n) by (unfold n; lia).
  assert (Hn' : (1 <= n)%nat) by (unfold n; lia).
  unfold FixedRateBond.dirty_stub.
  rewrite En, <- INR_IZR_INZ, <- pow_powerRZ, !float_pow_pos by exact Hq.
  rewrite (big_sum_ext _ (fun i => FixedRateBond.pmt b
                                   / Rpower (1 + FixedRateBond.y b)
                                            (INR i - FixedRateBond.stub b))%R)
    by (intros; rewrite float_pow_pos by exact Hq; reflexivity).
  pose proof (summation_dirty_split (FixedRateBond.pmt b) (FixedRateBond.fv b) n
                (FixedRateBond.y b) (FixedRateBond.stub b) Hn' Hq) as Hsplit.
  unfold Spec.summation_dirty in Hsplit.
  rewrite (big_sum_amount (fun _ => FixedRateBond.pmt b) (FixedRateBond.fv b)
             (fun i => Rpower (1 + FixedRateBond.y b) (INR i - FixedRateBond.stub b))
             n Hn') in Hsplit.
  rewrite Hsplit, annuity_sum by lra. unfold Rdiv. ring.
Qed.

(** ** Solver failure *)

Lemma IRR_as_imported (newton : solver) (cf0 : R) (rest : list R) (N : list Z)
    (estimate : R) :
  bondmath.IRR bondmath.as_imported newton (cf0 :: rest) N estimate = Raises NameError.
Proof. reflexivity. Qed.

Lemma IRR_solver_failure (G : bondmath.globals) (newton : solver)
    (cf0 : R) (rest : list R) (N : list Z) (estimate price : R) :
  bondmath.g_price G = Some price -> (price <> 0)%R ->
  (forall x0, newton (bondmath.equation price (cf0 :: rest) N) x0 300%nat
              = Raises RuntimeError) ->
  bondmath.IRR G newton (cf0 :: rest) N estimate
  = if bondmath.g_np G then Returns NaN else Raises NameError.
Proof.
  intros Hp Hp0 Hfail. unfold bondmath.IRR. rewrite Hp.
  destruct (Req_EM_T price 0); [contradiction|].
  rewrite Hfail. reflexivity.
Qed.

(** With [price = -100] the residual of the cash flows [4, 104] at periods
    [1, 2] is [4/(1+y) + 104/(1+y)^2 + 100]: it has no root. *)
Lemma IRR_residual_without_root (y : R) :
  (1 + y <> 0)%R -> bondmath.equation (-100) [4; 104]%R [1; 2] y <> 0%R.
Proof.
  intros Hq. unfold bondmath.equation. cbn [combine map].
  rewrite !py_sum_cons, py_sum_nil.
  replace (powerRZ (1 + y) 1) with ((1 + y) ^ 1)%R by (rewrite pow_powerRZ; reflexivity).
  replace (powerRZ (1 + y) 2) with ((1 + y) ^ 2)%R by (rewrite pow_powerRZ; reflexivity).
  set (q := (1 + y)%R) in *.
  intros E.
  assert (H : (4 * q + 104 + 100 * q ^ 2 = 0)%R).
  { replace (4 * q + 104 + 100 * q ^ 2)%R
      with ((4 / q ^ 1 + (104 / q ^ 2 + 0) - -100) * q ^ 2)%R by (field; exact Hq).
    rewrite E. ring. }
  nra.
Qed.

(** C3, counterexample.  With [np] bound in the module and [price = -100],
    no rate solves the residual of the cash flows [4, 104] at periods
    [1, 2], so the solver cannot converge; when it gives up with
    [RuntimeError], [IRR] returns the sentinel [np.nan]. *)
Lemma IRR_returns_nan_without_root :
  (forall y, (1 + y <> 0)%R -> bondmath.equation (-100) [4; 104]%R [1; 2] y <> 0%R) /\
  (forall newton : solver,
     (forall x0, newton (bondmath.equation (-100) [4; 104]%R [1; 2]) x0 300%nat
                 = Raises RuntimeError) ->
     bondmath.IRR (bondmath.mkGlobals (Some (-100)%R) true) newton
       [4; 104]%R [1; 2] (5 / 100)%R = Returns NaN) /\
  bondmath.IRR (bondmath.mkGlobals (Some (-100)%R) true) diverging_solver
    [4; 104]%R [1; 2] (5 / 100)%R = Returns NaN.
Proof.
  split; [exact IRR_residual_without_root|].
  assert (H : forall newton : solver,
             (forall x0, newton (bondmath.equation (-100) [4; 104]%R [1; 2]) x0 300%nat
                         = Raises RuntimeError) ->
             bondmath.IRR (bondmath.mkGlobals (Some (-100)%R) true) newton
               [4; 104]%R [1; 2] (5 / 100)%R = Returns NaN).
  { intros newton Hfail.
    rewrite (IRR_solver_failure _ newton 4 [104]%R [1; 2] (5 / 100) (-100));
      [reflexivity|reflexivity|lra|exact Hfail]. }
  split; [exact H|]. apply H. intros x0. reflexivity.
Qed.

(** C3, as amended.  When the root-finder exhausts its iteration limit
    (the solver raises [RuntimeError]): [IRR], with the names [price] and
    [np] it reads bound, catches the error and returns the sentinel
    [np.nan]; [BondInfo.ytm_couponList] returns nothing and lets the
    solver's [RuntimeError] reach the caller. *)
Theorem solver_failure_outcomes (newton : solver) (G : bondmath.globals)
    (cf0 : R) (rest : list R) (N : list Z) (estimate price : R)
    (b : BondInfo.self) (observed : R) :
  bondmath.g_price G = Some price -> bondmath.g_np G = true -> (price <> 0)%R ->
  (forall x0, newton (bondmath.equation price (cf0 :: rest) N) x0 300%nat
              = Raises RuntimeError) ->
  newton (BondInfo.equation b observed) (5 / 100)%R 1000%nat = Raises RuntimeError ->
  bondmath.IRR G newton (cf0 :: rest) N estimate = Returns NaN /\
  BondInfo.ytm_couponList newton b observed = Raises RuntimeError.
Proof.
  intros Hp Hnp Hp0 Hirr Hytm. split.
  - rewrite (IRR_solver_failure G newton cf0 rest N estimate price Hp Hp0 Hirr), Hnp.
    reflexivity.
  - unfold BondInfo.ytm_couponList. rewrite Hytm. reflexivity.
Qed.

Lemma solver_failure_outcomes_witness :
  bondmath.IRR (bondmath.mkGlobals (Some (-100)%R) true) diverging_solver
    (4 :: [104])%R [1; 2] (5 / 100)%R = Returns NaN /\
  BondInfo.ytm_couponList diverging_solver Examples.script_series (-100)
  = Raises RuntimeError.
Proof.
  apply (solver_failure_outcomes diverging_solver (bondmath.mkGlobals (Some (-100)%R) true)
           4 [104]%R [1; 2] (5 / 100) (-100) Examples.script_series (-100)).
  - reflexivity.
  - reflexivity.
  - lra.
  - intros x0. reflexivity.
  - reflexivity.
Defined.

(** * Further properties of the code *)

(** ** Day count: sign, grid and coupon dates *)


Lemma monthrange_days_february (y : Z) : 28 <= monthrange_days y 2 <= 29.
Proof. unfold monthrange_days. cbn. destruct (isleap y); lia. Qed.

Lemma monthrange_days_ge_28 (y m : Z) : 28 <= monthrange_days y m.
Proof.
  unfold monthrange_days.
  destruct (m =? 2); [destruct (isleap y); lia|].
  destruct ((m =? 4) || (m =? 6) || (m =? 9) || (m =? 11)); lia.
Qed.

(** Normalised days lie in [1 .. 31]; the transaction day in [1 .. 30]. *)
Lemma normalize_days_range (tD mD : date) :
  valid_date tD -> valid_date mD ->
  1 <= fst (DayCount.normalize_days tD mD) <= 30 /\
  1 <= snd (DayCount.normalize_days tD mD) <= 31.
Proof.
  intros (_ & _ & Ht1 & Ht2) (_ & _ & Hm1 & Hm2).
  pose proof (monthrange_days_le_31 (year tD) (month tD)).
  pose proof (monthrange_days_le_31 (year mD) (month mD)).
  unfold DayCount.normalize_days.
  destruct ((month tD =? 2) && (day tD =? monthrange_days (year tD) (month tD)));
  destruct ((month mD =? 2) && (day mD =? monthrange_days (year mD) (month mD)));
  cbn [fst snd]; case_tests; cbn; lia.
Qed.

Lemma n_days_same_month (tD mD : date) :
  valid_date tD -> valid_date mD ->
  year tD = year mD -> month tD = month mD -> day tD < day mD ->
  0 <= DayCount.n_days tD mD /\
  (DayCount.n_days tD mD = 0 <-> day tD = 30 /\ day mD = 31).
Proof.
  intros (_ & _ & Ht1 & Ht2) (_ & _ & Hm1 & Hm2) Hy Hm Hd.
  pose proof (monthrange_days_le_31 (year mD) (month mD)).
  unfold DayCount.n_days, DayCount.normalize_days.
  rewrite Hy, Hm in *.
  destruct (Z.eqb_spec (month mD) 2) as [E|E]; cbn [andb].
  - rewrite E in *. pose proof (monthrange_days_february (year mD)).
    case_tests; cbv beta iota zeta delta [orb andb]; lia.
  - case_tests; cbv beta iota zeta delta [orb andb]; lia.
Qed.

(** The 30/360 day count of two calendar dates in order is never negative,
    and it is zero only from the 30th to the 31st of one month. *)
Lemma n_days_nonnegative (tD mD : date) :
  valid_date tD -> valid_date mD -> date_lt tD mD ->
  0 <= DayCount.n_days tD mD /\
  (DayCount.n_days tD mD = 0 <->
   year tD = year mD /\ month tD = month mD /\ day tD = 30 /\ day mD = 31).
Proof.
  intros Ht Hm Hlt.
  destruct Hlt as [Hy|[Hy [Hmo|[Hmo Hd]]]].
  - pose proof (normalize_days_range tD mD Ht Hm) as [H1 H2].
    destruct Ht as (_ & Htm & _), Hm as (_ & Hmm & _).
    unfold DayCount.n_days. destruct (DayCount.normalize_days tD mD) as [a b].
    cbn [fst snd] in *. split; [lia|]. split; lia.
  - pose proof (normalize_days_range tD mD Ht Hm) as [H1 H2].
    unfold DayCount.n_days. destruct (DayCount.normalize_days tD mD) as [a b].
    cbn [fst snd] in *. split; [lia|]. split; lia.
  - destruct (n_days_same_month tD mD Ht Hm Hy Hmo Hd) as [H0 Hz].
    split; [exact H0|]. rewrite Hz. tauto.
Qed.

Lemma inject_Z_freq_nonzero (freq : Z) : 0 < freq -> ~ (inject_Z freq == 0)%Q.
Proof. intros H. unfold Qeq, inject_Z. cbn. lia. Qed.

Lemma inject_Z_freq_pos (freq : Z) : 0 < freq -> (0 < inject_Z freq)%Q.
Proof. intros H. change 0%Q with (inject_Z 0). rewrite <- Zlt_Qlt. exact H. Qed.

Lemma Qdiv_lt_pos (x y f : Q) : (0 < f)%Q -> (x < y)%Q -> (x / f < y / f)%Q.
Proof.
  intros Hf H. unfold Qdiv. apply Qmult_lt_compat_r; [apply Qinv_lt_0_compat; exact Hf|exact H].
Qed.

Lemma Qdiv_le_pos (x y f : Q) : (0 < f)%Q -> (x <= y)%Q -> (x / f <= y / f)%Q.
Proof.
  intros Hf H. unfold Qdiv. apply Qmult_le_compat_r; [exact H|].
  apply Qlt_le_weak, Qinv_lt_0_compat; exact Hf.
Qed.

Lemma Qdiv_inj_pos (x y f : Q) : ~ (f == 0)%Q -> (x / f == y / f)%Q -> (x == y)%Q.
Proof.
  intros Hf H.
  assert (Hx : (x == x / f * f)%Q) by (field; exact Hf).
  assert (Hy : (y == y / f * f)%Q) by (field; exact Hf).
  rewrite Hx, Hy, H. reflexivity.
Qed.

(** What [calendar_360] returns, in integer arithmetic over
    [a = n_days * freq]: [n] is [a / 360] rounded up, [T] is [360 / freq]
    and [t] is [(360 - a mod 360) / freq]. *)
Lemma calendar_360_integer_form (tD mD : date) (freq : Z) :
  0 < freq ->
  let a := DayCount.n_days tD mD * freq in
  exists T t,
    DayCount.calendar_360 tD mD freq = Returns (- ((- a) / 360), T, t) /\
    (T == inject_Z 360 / inject_Z freq)%Q /\
    (t == inject_Z (360 - a mod 360) / inject_Z freq)%Q.
Proof.
  intros Hf a. rewrite calendar_360_returns by lia.
  rewrite period_count_Z. do 2 eexists. split; [reflexivity|].
  split; [reflexivity|].
  rewrite (py_mod_period_Z _ _ Hf). fold a.
  change (a mod 360 # 1)%Q with (inject_Z (a mod 360)).
  unfold Zminus. rewrite inject_Z_plus, inject_Z_opp.
  field. apply inject_Z_freq_nonzero; exact Hf.
Qed.

Lemma ceil_div_360 (a : Z) :
  360 * (- ((- a) / 360) - 1) < a <= 360 * - ((- a) / 360) /\
  (a = 360 * - ((- a) / 360) -> 360 - a mod 360 = 360) /\
  (a <> 360 * - ((- a) / 360) -> 360 - a mod 360 = 360 * - ((- a) / 360) - a).
Proof.
  pose proof (Z.div_mod (- a) 360 ltac:(lia)) as H1.
  pose proof (Z.mod_pos_bound (- a) 360 ltac:(lia)) as H2.
  pose proof (Z.div_mod a 360 ltac:(lia)) as H3.
  pose proof (Z.mod_pos_bound a 360 ltac:(lia)) as H4.
  lia.
Qed.

(** X1.  For calendar dates [tD < mD] and [freq >= 1], [calendar_360]
    returns a period count [n >= 0], and [n = 0] exactly when the dates are
    the 30th and the 31st of the same month (the day count is then 0). *)
Theorem period_count_nonnegative (tD mD : date) (freq : Z) :
  valid_date tD -> valid_date mD -> date_lt tD mD -> 1 <= freq ->
  exists n T t,
    DayCount.calendar_360 tD mD freq = Returns (n, T, t) /\
    0 <= n /\
    (n = 0 <->
     year tD = year mD /\ month tD = month mD /\ day tD = 30 /\ day mD = 31).
Proof.
  intros Ht Hm Hlt Hf.
  destruct (calendar_360_integer_form tD mD freq ltac:(lia)) as (T & t & Hc & _).
  destruct (n_days_nonnegative tD mD Ht Hm Hlt) as [H0 Hz].
  exists (- ((- (DayCount.n_days tD mD * freq)) / 360)), T, t.
  split; [exact Hc|].
  set (nd := DayCount.n_days tD mD) in *.
  assert (Ha : 0 <= nd * freq) by nia.
  assert (Ha0 : nd * freq = 0 <-> nd = 0) by nia.
  set (a := nd * freq) in *. clearbody a.
  pose proof (Z.div_mod (- a) 360 ltac:(lia)) as Hdm.
  pose proof (Z.mod_pos_bound (- a) 360 ltac:(lia)) as Hmb.
  split; [lia|]. rewrite <- Hz, <- Ha0. lia.
Qed.

(** In exact arithmetic, for [freq > 0], [n] is the least number of periods
    that covers the day count, [(n-1)*T < n_days <= n*T], and [t] is what
    the [n] periods exceed it by, [n*T - n_days], except that a day count
    of exactly [n] periods gives [t = T], not [0]. *)
Lemma period_grid_exact (tD mD : date) (freq : Z) :
  0 < freq ->
  exists n T t,
    DayCount.calendar_360 tD mD freq = Returns (n, T, t) /\
    (inject_Z (n - 1) * T < inject_Z (DayCount.n_days tD mD))%Q /\
    (inject_Z (DayCount.n_days tD mD) <= inject_Z n * T)%Q /\
    ((inject_Z (DayCount.n_days tD mD) == inject_Z n * T)%Q -> (t == T)%Q) /\
    (~ (inject_Z (DayCount.n_days tD mD) == inject_Z n * T)%Q ->
     (t == inject_Z n * T - inject_Z (DayCount.n_days tD mD))%Q).
Proof.
  intros Hf. set (nd := inject_Z (DayCount.n_days tD mD)).
  destruct (calendar_360_integer_form tD mD freq Hf) as (T & t & Hc & HT & Ht).
  cbv zeta in Hc, Ht.
  set (a := DayCount.n_days tD mD * freq) in *.
  set (n := - ((- a) / 360)) in *.
  exists n, T, t. split; [exact Hc|].
  pose proof (inject_Z_freq_nonzero freq Hf) as HF0.
  pose proof (inject_Z_freq_pos freq Hf) as HF.
  assert (End : (nd == inject_Z a / inject_Z freq)%Q).
  { unfold a, nd. rewrite inject_Z_mult. field. exact HF0. }
  assert (EnT : forall k, (inject_Z k * T == inject_Z (360 * k) / inject_Z freq)%Q).
  { intros k. rewrite HT, inject_Z_mult. field. exact HF0. }
  destruct (ceil_div_360 a) as ((Hlo & Hhi) & Hwhole & Hpart). fold n in Hlo, Hhi, Hwhole, Hpart.
  split; [|split; [|split]].
  - rewrite EnT, End. apply Qdiv_lt_pos; [exact HF|]. rewrite <- Zlt_Qlt. exact Hlo.
  - rewrite EnT, End. apply Qdiv_le_pos; [exact HF|]. rewrite <- Zle_Qle. exact Hhi.
  - intros E. rewrite EnT, End in E.
    assert (Ea : a = 360 * n).
    { apply Qdiv_inj_pos in E; [|exact HF0].
      unfold Qeq in E. cbn [Qnum Qden inject_Z] in E. rewrite !Z.mul_1_r in E. exact E. }
    rewrite Ht, HT, (Hwhole Ea). reflexivity.
  - intros NE. rewrite EnT, End in NE.
    assert (Na : a <> 360 * n) by (intros Ea; apply NE; rewrite Ea; reflexivity).
    rewrite Ht, EnT, End.
    rewrite (Hpart Na).
    unfold Zminus. rewrite inject_Z_plus, inject_Z_opp. field. exact HF0.
Qed.

(** ** The period computation on binary64 *)

Lemma all_upto_spec (p : Z -> bool) (k : nat) (z x : Z) :
  all_upto p k z = true -> z - Z.of_nat k <= x <= z -> p x = true.
Proof.
  revert z. induction k as [|k IH]; intros z H Hx; cbn [all_upto] in H.
  - replace x with z by lia. exact H.
  - apply andb_prop in H. destruct H as [Hz Hrest].
    destruct (Z.eq_dec x z) as [->|Hne]; [exact Hz|].
    apply (IH (z - 1)); [exact Hrest|lia].
Qed.

Lemma all_days_spec (p : Z -> bool) (hi x : Z) :
  all_days p hi = true -> 0 <= x <= hi -> p x = true.
Proof.
  intros H Hx. apply (all_upto_spec p (Z.to_nat hi) hi); [exact H|lia].
Qed.

(** Every day count up to a hundred years, at each standard frequency. *)
Lemma float_period_exact_checked (freq nd : Z) :
  In freq standard_frequencies -> 0 <= nd <= century_days ->
  float_period_exact freq nd = true.
Proof.
  intros Hin Hnd.
  apply (all_days_spec (float_period_exact freq) century_days); [|exact Hnd].
  cbn in Hin.
  destruct Hin as [<-|[<-|[<-|[<-|[<-|[<-|[]]]]]]]; vm_cast_no_check (eq_refl true).
Qed.

Lemma scaled_integer (m e z : Z) :
  (if 0 <=? e then m * 2 ^ e =? z else m =? z * 2 ^ (- e)) = true ->
  (Binary64.scaled m e == inject_Z z)%Q.
Proof.
  destruct e as [|p|p]; cbn [Z.leb Z.compare Binary64.scaled Z.opp]; intros H.
  - apply Z.eqb_eq in H. rewrite <- H, Z.pow_0_r, Z.mul_1_r. reflexivity.
  - apply Z.eqb_eq in H. rewrite H. reflexivity.
  - apply Z.eqb_eq in H. unfold Qeq, inject_Z. cbn [Qnum Qden].
    rewrite H, Pos2Z.inj_pow. lia.
Qed.

Lemma is_integer_F2Q (f : Binary64.float) (z : Z) :
  Binary64.is_integer f z = true ->
  exists q, Binary64.F2Q f = Some q /\ (q == inject_Z z)%Q.
Proof.
  unfold Binary64.is_integer, Binary64.F2Q.
  destruct (Binary64.decode f) as [[m e]|]; [|discriminate].
  intros H. eexists. split; [reflexivity|]. apply scaled_integer. exact H.
Qed.

(** [360 / freq] and [n_days % (360 / freq)] when [freq] divides 360. *)
Lemma period_length_whole (freq Tz : Z) :
  0 < freq -> Tz * freq = 360 -> (360 / inject_Z freq == inject_Z Tz)%Q.
Proof.
  intros Hf E.
  assert (H : (inject_Z 360 == inject_Z Tz * inject_Z freq)%Q)
    by (rewrite <- inject_Z_mult, E; reflexivity).
  change 360%Q with (inject_Z 360). rewrite H. field.
  unfold Qeq, inject_Z; cbn; lia.
Qed.

Lemma py_mod_whole (nd freq Tz : Z) :
  0 < freq -> Tz * freq = 360 ->
  (py_mod (inject_Z nd) (360 / inject_Z freq) == inject_Z (nd mod Tz))%Q.
Proof.
  intros Hf E. rewrite (py_mod_period_Z nd freq Hf).
  assert (HT : 0 < Tz) by nia.
  assert (Em : (nd * freq) mod 360 = (nd mod Tz) * freq).
  { rewrite <- E. rewrite Z.mul_mod_distr_r by lia. reflexivity. }
  rewrite Em. change ((nd mod Tz * freq) # 1)%Q with (inject_Z (nd mod Tz * freq)).
  rewrite inject_Z_mult. field. unfold Qeq, inject_Z; cbn; lia.
Qed.

Lemma standard_frequency_divides (freq : Z) :
  In freq standard_frequencies -> 0 < freq /\ (360 / freq) * freq = 360.
Proof.
  cbn. intros [<-|[<-|[<-|[<-|[<-|[<-|[]]]]]]]; split; reflexivity || lia.
Qed.

(** At a standard frequency and a day count of at most a hundred years
    the binary64 computation returns the exact period: the same [n], and
    floats [T], [t] whose values are the rationals of [DayCount]; its test
    [t == T] is the exact one. *)
Lemma period_of_days_exact (tD mD : date) (freq : Z) :
  In freq standard_frequencies -> 0 <= DayCount.n_days tD mD <= century_days ->
  exists n T t qT qt Tq tq,
    DayCountFloat.calendar_360 tD mD freq = Some (Returns (n, T, t)) /\
    Binary64.F2Q T = Some qT /\ Binary64.F2Q t = Some qt /\
    DayCount.calendar_360 tD mD freq = Returns (n, Tq, tq) /\
    (qT == Tq)%Q /\ (qt == tq)%Q /\
    PrimFloat.eqb t T = Qeq_bool tq Tq.
Proof.
  intros Hin Hnd.
  pose proof (float_period_exact_checked freq _ Hin Hnd) as Hc.
  destruct (standard_frequency_divides freq Hin) as [Hf Hdiv].
  unfold float_period_exact in Hc. unfold DayCountFloat.calendar_360.
  set (nd := DayCount.n_days tD mD) in *.
  destruct (DayCountFloat.period_of_days nd freq) as [[[[n T] t]|]|]; try discriminate.
  cbv zeta in Hc.
  apply andb_prop in Hc. destruct Hc as [Hc Heqb].
  apply andb_prop in Hc. destruct Hc as [Hc Ht].
  apply andb_prop in Hc. destruct Hc as [Hn HT].
  apply Z.eqb_eq in Hn. apply eqb_prop in Heqb.
  destruct (is_integer_F2Q _ _ HT) as (qT & EqT & HqT).
  destruct (is_integer_F2Q _ _ Ht) as (qt & Eqt & Hqt).
  exists n, T, t, qT, qt. do 2 eexists.
  split; [reflexivity|]. split; [exact EqT|]. split; [exact Eqt|].
  rewrite calendar_360_returns by lia. rewrite period_count_Z. fold nd.
  split; [rewrite Hn; reflexivity|].
  pose proof (period_length_whole freq _ Hf Hdiv) as ET.
  pose proof (py_mod_whole nd freq _ Hf Hdiv) as Em.
  split; [rewrite HqT, ET; reflexivity|].
  split.
  - rewrite Hqt, Em, ET. unfold Zminus. rewrite inject_Z_plus, inject_Z_opp. reflexivity.
  - rewrite Heqb. destruct (Z.eqb_spec (nd mod (360 / freq)) 0) as [E0|N0]; symmetry.
    + apply Qeq_bool_iff. rewrite Em, E0. change (inject_Z 0) with 0%Q. ring.
    + destruct (Qeq_bool _ _) eqn:EQ; [|reflexivity]. exfalso. apply N0.
      apply Qeq_bool_iff in EQ. rewrite Em in EQ.
      assert (H0 : (inject_Z (nd mod (360 / freq)) == inject_Z 0)%Q).
      { change (inject_Z 0) with 0%Q.
        set (a := inject_Z (nd mod (360 / freq))) in *.
        set (b := (360 / inject_Z freq)%Q) in *. lra. }
      unfold Qeq in H0. cbn [Qnum Qden inject_Z] in H0. lia.
Qed.

(** Two dates at most a hundred years apart. *)
Lemma n_days_century (tD mD : date) :
  valid_date tD -> valid_date mD -> date_lt tD mD -> year mD - year tD <= 100 ->
  0 <= DayCount.n_days tD mD <= century_days.
Proof.
  intros Ht Hm Hlt Hy.
  destruct (n_days_nonnegative tD mD Ht Hm Hlt) as [H0 _]. split; [exact H0|].
  pose proof (normalize_days_range tD mD Ht Hm) as [H1 H2].
  destruct Ht as (_ & Htm & _), Hm as (_ & Hmm & _).
  unfold century_days, DayCount.n_days. destruct (DayCount.normalize_days tD mD) as [a b].
  cbn [fst snd] in *. lia.
Qed.

(** C2, as amended.  For calendar dates [tD < mD] at most a hundred years
    apart and a frequency of 1, 2, 3, 4, 6 or 12, the binary64 computation
    of [calendar_360] returns [n = ceil(nDays/360*freq)], [T = 360/freq] and
    [t = T - (nDays mod T)] exactly, where [nDays] is taken over days
    normalised by the bond-basis rule: last day of February becomes 30, a
    transaction day above 30 becomes 30, and a maturity day 31 becomes 30
    only when the transaction day, after these two rules, is 30. *)
Theorem calendar_360_binary64_bond_basis_period (tD mD : date) (freq : Z) :
  valid_date tD -> valid_date mD -> date_lt tD mD -> year mD - year tD <= 100 ->
  In freq standard_frequencies ->
  exists n T t qT qt,
    DayCountFloat.calendar_360 tD mD freq = Some (Returns (n, T, t)) /\
    Binary64.F2Q T = Some qT /\ Binary64.F2Q t = Some qt /\
    Spec.returns_period (Returns (n, qT, qt)) (Spec.bond_basis_period tD mD freq).
Proof.
  intros Ht Hm Hlt Hy Hin.
  pose proof (n_days_century tD mD Ht Hm Hlt Hy) as Hnd.
  destruct (period_of_days_exact tD mD freq Hin Hnd)
    as (n & T & t & qT & qt & Tq & tq & Hfl & HT & Htt & Hex & ET & Et & _).
  destruct (standard_frequency_divides freq Hin) as [Hf _].
  pose proof (calendar_360_exact_bond_basis_period tD mD freq Ht Hm Hlt Hf) as Hspec.
  rewrite Hex in Hspec.
  exists n, T, t, qT, qt. repeat (split; [assumption|]).
  unfold Spec.returns_period in *.
  destruct (Spec.bond_basis_period tD mD freq) as [[n' T'] t'].
  destruct Hspec as (En & ET' & Et').
  split; [exact En|]. split; [rewrite ET; exact ET'|rewrite Et; exact Et'].
Qed.

Lemma calendar_360_binary64_bond_basis_period_witness :
  exists n T t qT qt,
    DayCountFloat.calendar_360 Examples.d_2011_02_14 Examples.d_2020_11_15 2
      = Some (Returns (n, T, t)) /\
    Binary64.F2Q T = Some qT /\ Binary64.F2Q t = Some qt /\
    Spec.returns_period (Returns (n, qT, qt))
      (Spec.bond_basis_period Examples.d_2011_02_14 Examples.d_2020_11_15 2).
Proof.
  apply calendar_360_binary64_bond_basis_period.
  - unfold valid_date; cbn; lia.
  - unfold valid_date; cbn; lia.
  - unfold date_lt; cbn; lia.
  - cbn; lia.
  - cbn; tauto.
Defined.

(** Outside these frequencies the binary64 result can leave the formula:
    from 01/01/2018 to 25/01/2020 ([nDays = 744]) at fifteen coupons a year,
    [744/360*15] is [31] but the float product is just above it, and the
    code returns [n = 32]. *)
Lemma calendar_360_binary64_frequency_15 :
  DayCount.n_days Examples.d_2018_01_01 Examples.d_2020_01_25 = 744 /\
  Qceiling (inject_Z 744 / 360 * inject_Z 15)%Q = 31 /\
  exists T t,
    DayCountFloat.calendar_360 Examples.d_2018_01_01 Examples.d_2020_01_25 15
    = Some (Returns (32, T, t)).
Proof.
  split; [reflexivity|]. split; [reflexivity|].
  do 2 eexists. vm_compute. reflexivity.
Qed.




(** X2.  For calendar dates [tD < mD] at most a hundred years apart and a
    frequency of 1, 2, 3, 4, 6 or 12, the binary64 [n] is the least number
    of periods that covers the day count, [(n-1)*T < n_days <= n*T], and [t]
    is what the [n] periods exceed it by, [n*T - n_days], except that a day
    count of exactly [n] periods gives [t = T], not [0]. *)
Theorem period_grid_binary64 (tD mD : date) (freq : Z) :
  valid_date tD -> valid_date mD -> date_lt tD mD -> year mD - year tD <= 100 ->
  In freq standard_frequencies ->
  exists n T t qT qt,
    DayCountFloat.calendar_360 tD mD freq = Some (Returns (n, T, t)) /\
    Binary64.F2Q T = Some qT /\ Binary64.F2Q t = Some qt /\
    (inject_Z (n - 1) * qT < inject_Z (DayCount.n_days tD mD))%Q /\
    (inject_Z (DayCount.n_days tD mD) <= inject_Z n * qT)%Q /\
    ((inject_Z (DayCount.n_days tD mD) == inject_Z n * qT)%Q -> (qt == qT)%Q) /\
    (~ (inject_Z (DayCount.n_days tD mD) == inject_Z n * qT)%Q ->
     (qt == inject_Z n * qT - inject_Z (DayCount.n_days tD mD))%Q).
Proof.
  intros Ht Hm Hlt Hy Hin.
  pose proof (n_days_century tD mD Ht Hm Hlt Hy) as Hnd.
  destruct (period_of_days_exact tD mD freq Hin Hnd)
    as (n & T & t & qT & qt & Tq & tq & Hfl & HT & Htt & Hex & ET & Et & _).
  destruct (standard_frequency_divides freq Hin) as [Hf _].
  destruct (period_grid_exact tD mD freq Hf) as (n' & T' & t' & Hex' & H1 & H2 & H3 & H4).
  rewrite Hex in Hex'. inversion Hex' as [[En ETq Etq]]. subst n' T' t'.
  exists n, T, t, qT, qt. repeat (split; [assumption|]).
  rewrite ET, Et. repeat split; assumption.
Qed.

Lemma period_grid_binary64_witness :
  exists n T t qT qt,
    DayCountFloat.calendar_360 Examples.d_2011_02_14 Examples.d_2020_11_15 2
      = Some (Returns (n, T, t)) /\
    Binary64.F2Q T = Some qT /\ Binary64.F2Q t = Some qt /\
    (inject_Z (n - 1) * qT
     < inject_Z (DayCount.n_days Examples.d_2011_02_14 Examples.d_2020_11_15))%Q /\
    (inject_Z (DayCount.n_days Examples.d_2011_02_14 Examples.d_2020_11_15)
     <= inject_Z n * qT)%Q /\
    ((inject_Z (DayCount.n_days Examples.d_2011_02_14 Examples.d_2020_11_15)
      == inject_Z n * qT)%Q -> (qt == qT)%Q) /\
    (~ (inject_Z (DayCount.n_days Examples.d_2011_02_14 Examples.d_2020_11_15)
        == inject_Z n * qT)%Q ->
     (qt == inject_Z n * qT
            - inject_Z (DayCount.n_days Examples.d_2011_02_14 Examples.d_2020_11_15))%Q).
Proof.
  apply period_grid_binary64.
  - unfold valid_date; cbn; lia.
  - unfold valid_date; cbn; lia.
  - unfold date_lt; cbn; lia.
  - cbn; lia.
  - cbn; tauto.
Defined.

(** ** The simple price *)

Lemma simplePrice_value_sum (b : FixedRateBond.self) :
  1 <= FixedRateBond.n b -> (1 + FixedRateBond.y b <> 0)%R -> (FixedRateBond.y b <> 0)%R ->
  FixedRateBond.simplePrice_value b =
  Spec.on_coupon_dirty
    (Spec.amount (fun _ => FixedRateBond.pmt b) (FixedRateBond.fv b)
                 (Z.to_nat (FixedRateBond.n b)))
    (Z.to_nat (FixedRateBond.n b)) (FixedRateBond.y b).
Proof.
  intros Hn Hq Hy. unfold Spec.on_coupon_dirty, FixedRateBond.simplePrice_value.
  rewrite (big_sum_amount (fun _ => FixedRateBond.pmt b) (FixedRateBond.fv b)
             (fun i => (1 + FixedRateBond.y b) ^ i)%R) by lia.
  rewrite annuity_sum by assumption.
  replace (FixedRateBond.n b) with (Z.of_nat (Z.to_nat (FixedRateBond.n b))) at 1 2 by lia.
  rewrite <- pow_powerRZ. unfold Rdiv. ring.
Qed.

Lemma simplePrice_returns_value (b : FixedRateBond.self) :
  (1 + FixedRateBond.y b <> 0)%R ->
  FixedRateBond.simplePrice b = Returns (FixedRateBond.simplePrice_value b).
Proof.
  intros Hq. unfold FixedRateBond.simplePrice.
  destruct (Req_EM_T (1 + FixedRateBond.y b) 0); [contradiction|reflexivity].
Qed.

Lemma closed_form_range_facts (n : Z) (y fv pmt : R) :
  closed_form_range n y fv pmt ->
  1 <= n /\ (0 < 1 + y)%R /\ (1 + y <> 0)%R /\ (-1 < y)%R /\ (y <> 0)%R.
Proof. intros (Hn & Hq & Hy & _). repeat split; try lia; destruct Hy; lra. Qed.

(** X5.  Within the binary64 range of the closed form ([1 <= n <= 500],
    [1/2 <= 1 + y <= 2], [|y| >= 1/1000], amounts up to [10^9]),
    [FixedRateBond.simplePrice] returns the discounted cash flows: the sum
    over [i = 1..n] of [amount_i / (1+y)^i], the coupon each period and the
    face value with the last. *)
Theorem simplePrice_discounted_cash_flows (b : FixedRateBond.self) :
  closed_form_range (FixedRateBond.n b) (FixedRateBond.y b) (FixedRateBond.fv b)
                    (FixedRateBond.pmt b) ->
  FixedRateBond.simplePrice b =
  Returns (Spec.on_coupon_dirty
             (Spec.amount (fun _ => FixedRateBond.pmt b) (FixedRateBond.fv b)
                          (Z.to_nat (FixedRateBond.n b)))
             (Z.to_nat (FixedRateBond.n b)) (FixedRateBond.y b)).
Proof.
  intros Hr. destruct (closed_form_range_facts _ _ _ _ Hr) as (Hn & _ & Hq & _ & Hy).
  rewrite simplePrice_returns_value by exact Hq.
  rewrite simplePrice_value_sum by assumption. reflexivity.
Qed.

(** [(1 - 1/(1+y)^n) / y] is positive for every yield [y > -1], [y <> 0]. *)
Lemma annuity_factor_pos (y : R) (n : nat) :
  (1 <= n)%nat -> (-1 < y)%R -> (y <> 0)%R -> (0 < (1 - / (1 + y) ^ n) / y)%R.
Proof.
  intros Hn Hy Hy0.
  assert (Hq : (0 < 1 + y)%R) by lra.
  pose proof (pow_lt (1 + y) n Hq) as Hp.
  destruct (Rlt_or_le 0 y) as [Hpos|Hneg].
  - assert (H1 : (1 < (1 + y) ^ n)%R) by (apply Rlt_pow_R1; [lra|lia]).
    assert (H2 : (/ (1 + y) ^ n < / 1)%R) by (apply Rinv_0_lt_contravar; lra).
    rewrite Rinv_1 in H2.
    apply Rdiv_lt_0_compat; lra.
  - assert (Hy' : (y < 0)%R) by lra.
    assert (H1 : ((1 + y) ^ n < 1)%R).
    { destruct n as [|n]; [lia|]. apply pow_lt_1_compat; [lra|lia]. }
    assert (H2 : (/ 1 < / (1 + y) ^ n)%R) by (apply Rinv_0_lt_contravar; lra).
    rewrite Rinv_1 in H2.
    replace ((1 - / (1 + y) ^ n) / y)%R with ((/ (1 + y) ^ n - 1) / (- y))%R
      by (field; lra).
    apply Rdiv_lt_0_compat; lra.
Qed.

Lemma simplePrice_value_premium (b : FixedRateBond.self) :
  1 <= FixedRateBond.n b -> (-1 < FixedRateBond.y b)%R -> (FixedRateBond.y b <> 0)%R ->
  (FixedRateBond.simplePrice_value b - FixedRateBond.fv b
   = (FixedRateBond.pmt b - FixedRateBond.y b * FixedRateBond.fv b)
     * ((1 - / (1 + FixedRateBond.y b) ^ Z.to_nat (FixedRateBond.n b)) / FixedRateBond.y b))%R.
Proof.
  intros Hn Hy Hy0. unfold FixedRateBond.simplePrice_value.
  replace (FixedRateBond.n b) with (Z.of_nat (Z.to_nat (FixedRateBond.n b))) at 1 2 by lia.
  rewrite <- pow_powerRZ.
  assert (Hp : ((1 + FixedRateBond.y b) ^ Z.to_nat (FixedRateBond.n b) <> 0)%R)
    by (apply pow_nonzero; lra).
  field. split; assumption.
Qed.

(** X6.  Within the binary64 range of the closed form, the simple price is
    the face value when the coupon equals [y * fv], above it when the coupon
    is larger and below it when the coupon is smaller. *)
Theorem simplePrice_par_premium_discount (b : FixedRateBond.self) (price : R) :
  closed_form_range (FixedRateBond.n b) (FixedRateBond.y b) (FixedRateBond.fv b)
                    (FixedRateBond.pmt b) ->
  FixedRateBond.simplePrice b = Returns price ->
  ((FixedRateBond.pmt b = FixedRateBond.y b * FixedRateBond.fv b)%R ->
   price = FixedRateBond.fv b) /\
  ((FixedRateBond.pmt b > FixedRateBond.y b * FixedRateBond.fv b)%R ->
   (price > FixedRateBond.fv b)%R) /\
  ((FixedRateBond.pmt b < FixedRateBond.y b * FixedRateBond.fv b)%R ->
   (price < FixedRateBond.fv b)%R).
Proof.
  intros Hr Hp. destruct (closed_form_range_facts _ _ _ _ Hr) as (Hn & _ & _ & Hy & Hy0).
  rewrite simplePrice_returns_value in Hp by lra. inversion Hp as [E]. clear Hp.
  pose proof (simplePrice_value_premium b Hn Hy Hy0) as Hd.
  pose proof (annuity_factor_pos (FixedRateBond.y b) (Z.to_nat (FixedRateBond.n b))
                ltac:(lia) Hy Hy0) as Hf.
  set (f := ((1 - / (1 + FixedRateBond.y b) ^ Z.to_nat (FixedRateBond.n b))
             / FixedRateBond.y b)%R) in *.
  repeat split; intros H; nra.
Qed.

(** ** The fixed-rate class as a constant series *)

Lemma combine_repeat_seq (c : R) (a k : nat) :
  combine (repeat c k) (seq a k) = map (fun i => (c, i)) (seq a k).
Proof.
  revert a. induction k as [|k IH]; intros a; cbn; [reflexivity|].
  rewrite IH. reflexivity.
Qed.

Lemma as_series_pair (b : FixedRateBond.self) :
  0 <= FixedRateBond.n b ->
  constant_coupon_pair b (as_series b) (FixedRateBond.pmt b) (FixedRateBond.fv b)
    (Z.to_nat (FixedRateBond.n b)) (FixedRateBond.y b) (FixedRateBond.stub b).
Proof.
  intros Hn. unfold constant_coupon_pair. repeat split; try reflexivity; try (cbn; lia).
  exists (Z.to_nat (FixedRateBond.n b)). split; [lia|reflexivity].
Qed.

Lemma as_series_on_coupon (b : FixedRateBond.self) :
  BondInfo.on_coupon (as_series b) = FixedRateBond.on_coupon b.
Proof. reflexivity. Qed.

Lemma as_series_dirty_on_coupon (b : FixedRateBond.self) (x : R) :
  BondInfo.dirty_on_coupon (as_series b) x =
  (py_sum (map (fun i => FixedRateBond.pmt b / (1 + x) ^ i) (periods (FixedRateBond.n b)))
   + FixedRateBond.fv b / powerRZ (1 + x) (FixedRateBond.n b))%R.
Proof.
  unfold BondInfo.dirty_on_coupon, as_series, periods. cbn [BondInfo.pmt BondInfo.n BondInfo.fv].
  rewrite combine_repeat_seq, map_map. reflexivity.
Qed.

Lemma as_series_dirty_stub (b : FixedRateBond.self) (x : R) :
  BondInfo.dirty_stub (as_series b) x =
  (py_sum (map (fun i => FixedRateBond.pmt b
                         / float_pow (1 + x) (INR i - FixedRateBond.stub b))
               (periods (FixedRateBond.n b)))
   + FixedRateBond.fv b / float_pow (1 + x) (IZR (FixedRateBond.n b) - FixedRateBond.stub b))%R.
Proof.
  unfold BondInfo.dirty_stub, as_series, periods. cbn [BondInfo.pmt BondInfo.n BondInfo.fv].
  rewrite combine_repeat_seq, map_map. reflexivity.
Qed.

Lemma FixedRateBond_residual_as_series (b : FixedRateBond.self) (price x : R) :
  FixedRateBond.ytm_couponList b price x = BondInfo.equation (as_series b) price x.
Proof.
  unfold FixedRateBond.ytm_couponList, BondInfo.equation.
  rewrite as_series_on_coupon. destruct (FixedRateBond.on_coupon b).
  - rewrite as_series_dirty_on_coupon. reflexivity.
  - rewrite as_series_dirty_stub. reflexivity.
Qed.

(** The price of the branch a fixed-rate bond selects is the series price of
    its repeated coupon at the bond's own yield. *)
Lemma FixedRateBond_dirty_stub_discounted (b : FixedRateBond.self) :
  FixedRateBond.on_coupon b = false -> 1 <= FixedRateBond.n b ->
  (0 < 1 + FixedRateBond.y b)%R -> (FixedRateBond.y b <> 0)%R ->
  FixedRateBond.dirty_stub b = discounted (as_series b) (FixedRateBond.y b).
Proof.
  intros Hc Hn Hq Hy. unfold discounted. rewrite as_series_on_coupon, Hc.
  pose proof (as_series_pair b ltac:(lia)) as Hpair.
  assert (Hk : (1 <= Z.to_nat (FixedRateBond.n b))%nat) by lia.
  rewrite (FixedRateBond_dirty_stub_closed_form _ _ _ _ _ _ _ Hpair Hq).
  rewrite (closed_form_dirty_summation _ _ _ _ _ Hk Hq Hy).
  symmetry. exact (BondInfo_dirty_stub_summation _ _ _ _ _ _ _ Hpair Hk Hq).
Qed.

Lemma FixedRateBond_simplePrice_discounted (b : FixedRateBond.self) :
  FixedRateBond.on_coupon b = true -> 1 <= FixedRateBond.n b ->
  (1 + FixedRateBond.y b <> 0)%R -> (FixedRateBond.y b <> 0)%R ->
  FixedRateBond.simplePrice_value b = discounted (as_series b) (FixedRateBond.y b).
Proof.
  intros Hc Hn Hq Hy. unfold discounted. rewrite as_series_on_coupon, Hc.
  rewrite as_series_dirty_on_coupon. unfold periods. rewrite py_sum_map_seq.
  rewrite annuity_sum by assumption. unfold FixedRateBond.simplePrice_value.
  assert (E : powerRZ (1 + FixedRateBond.y b) (FixedRateBond.n b)
              = ((1 + FixedRateBond.y b) ^ Z.to_nat (FixedRateBond.n b))%R).
  { rewrite pow_powerRZ. f_equal. lia. }
  rewrite E. unfold Rdiv. ring.
Qed.

Lemma as_series_valid (b : FixedRateBond.self) :
  (0 <= FixedRateBond.pmt b)%R ->
  Forall (fun p => 0 <= p)%R (BondInfo.pmt (as_series b)).
Proof.
  intros H. cbn. apply Forall_forall. intros p Hp. apply repeat_spec in Hp. subst p. exact H.
Qed.

(** X17.  Between coupon dates, for a fixed-rate bond with face value
    positive and coupon not negative, within the binary64 range of the
    closed form: the residual returned by [ytm_couponList] at the dirty
    price [dirtyPrice] returned vanishes, among rates [x > -1], exactly at
    [x = y]. *)
Theorem FixedRateBond_residual_root_iff (b : FixedRateBond.self)
    (price accrued clean x : R) :
  (0 <= FixedRateBond.pmt b)%R -> (0 < FixedRateBond.fv b)%R ->
  closed_form_range (FixedRateBond.n b) (FixedRateBond.y b) (FixedRateBond.fv b)
                    (FixedRateBond.pmt b) ->
  (0 < FixedRateBond.T b)%Q -> (FixedRateBond.t b <= FixedRateBond.T b)%Q ->
  FixedRateBond.dirtyPrice b = Returns (price, accrued, clean) ->
  (-1 < x)%R ->
  (FixedRateBond.ytm_couponList b price x = 0%R <-> x = FixedRateBond.y b).
Proof.
  intros Hp Hfv Hr HT Ht Hprice Hx.
  destruct (closed_form_range_facts _ _ _ _ Hr) as (Hn & _ & _ & Hy & Hy0).
  assert (Hc : FixedRateBond.on_coupon b = false).
  { destruct (FixedRateBond.on_coupon b) eqn:E; [|reflexivity].
    rewrite (FixedRateBond_dirtyPrice_on_coupon b E) in Hprice. discriminate. }
  rewrite (FixedRateBond_dirtyPrice_stub b Hc) in Hprice by lra.
  inversion Hprice as [[Ep Ea Ecl]]. clear Hprice.
  rewrite FixedRateBond_residual_as_series, equation_discounted.
  rewrite (FixedRateBond_dirty_stub_discounted b Hc Hn) by lra.
  split.
  - intros H. apply (discounted_injective (as_series b)); try assumption.
    + apply as_series_valid; exact Hp.
    + lra.
  - intros ->. lra.
Qed.

(** X18.  On a coupon date the same holds with the price of [simplePrice],
    within the binary64 range of the closed form: the residual of
    [ytm_couponList] at that price vanishes, among rates [x > -1], exactly
    at the bond's yield. *)
Theorem FixedRateBond_simplePrice_residual_root_iff (b : FixedRateBond.self) (price x : R) :
  (0 <= FixedRateBond.pmt b)%R -> (0 < FixedRateBond.fv b)%R ->
  closed_form_range (FixedRateBond.n b) (FixedRateBond.y b) (FixedRateBond.fv b)
                    (FixedRateBond.pmt b) ->
  (0 < FixedRateBond.T b)%Q ->
  FixedRateBond.on_coupon b = true ->
  FixedRateBond.simplePrice b = Returns price ->
  (-1 < x)%R ->
  (FixedRateBond.ytm_couponList b price x = 0%R <-> x = FixedRateBond.y b).
Proof.
  intros Hp Hfv Hr HT Hc Hprice Hx.
  destruct (closed_form_range_facts _ _ _ _ Hr) as (Hn & _ & _ & Hy & Hy0).
  rewrite simplePrice_returns_value in Hprice by lra. inversion Hprice as [Ep]. clear Hprice.
  rewrite FixedRateBond_residual_as_series, equation_discounted.
  rewrite (FixedRateBond_simplePrice_discounted b Hc Hn) by lra.
  assert (Ht : (FixedRateBond.t b <= FixedRateBond.T b)%Q).
  { unfold FixedRateBond.on_coupon in Hc. apply Qeq_bool_iff in Hc. rewrite Hc. apply Qle_refl. }
  split.
  - intros H. apply (discounted_injective (as_series b)); try assumption.
    + apply as_series_valid; exact Hp.
    + lra.
  - intros ->. lra.
Qed.

(** ** Constructed bonds *)

Lemma calendar_360_facts (tD mD : date) (freq n : Z) (T t : Q) :
  0 < freq -> DayCount.calendar_360 tD mD freq = Returns (n, T, t) ->
  (0 < T)%Q /\ (0 < t)%Q /\ (t <= T)%Q /\
  n = - ((- (DayCount.n_days tD mD * freq)) / 360).
Proof.
  intros Hf Hc. rewrite calendar_360_returns in Hc by lia.
  inversion Hc as [[En ET Et]]. clear Hc.
  pose proof (period_length_pos freq Hf) as HT.
  pose proof (py_mod_bounds (inject_Z (DayCount.n_days tD mD)) _ HT) as [Hlo Hhi].
  rewrite period_count_Z.
  set (T0 := (360 / inject_Z freq)%Q) in *.
  set (r := py_mod (inject_Z (DayCount.n_days tD mD)) T0) in *.
  repeat split; lra.
Qed.

Lemma period_count_ge_1 (nd freq : Z) :
  1 <= nd -> 1 <= freq -> 1 <= - ((- (nd * freq)) / 360).
Proof.
  intros Hn Hf. assert (Ha : 1 <= nd * freq) by nia.
  destruct (ceil_div_360 (nd * freq)) as ((Hlo & Hhi) & _). lia.
Qed.

Lemma FixedRateBond_init_inv (tD mD : date) (fv ac : R) (freq : Z) (ytm : R)
    (calendarDays : Z) (b : FixedRateBond.self) :
  FixedRateBond.__init__ tD mD fv ac freq ytm calendarDays = Returns b ->
  freq <> 0 /\ calendarDays = 360 /\
  FixedRateBond.fv b = fv /\
  FixedRateBond.pmt b = (ac / 100 * fv / IZR freq)%R /\
  FixedRateBond.y b = (ytm / 100 / IZR freq)%R /\
  FixedRateBond.ytm b = (ytm / 100)%R /\
  FixedRateBond.freq b = freq /\
  DayCount.calendar_360 tD mD freq
  = Returns (FixedRateBond.n b, FixedRateBond.T b, FixedRateBond.t b).
Proof.
  unfold FixedRateBond.__init__, FixedRateBond.calendar_360.
  destruct (Z.eqb_spec freq 0) as [|Hf]; [discriminate|].
  destruct (Z.eqb_spec calendarDays 360) as [Hc|]; [|discriminate].
  rewrite (calendar_360_returns tD mD freq Hf). cbn.
  intros H. inversion H. cbn. repeat split; assumption.
Qed.

Lemma BondInfo_init_inv (tD mD : date) (fv : R) (ac : list R) (freq : Z) (ytm : R)
    (calendarDays : Z) (b : BondInfo.self) :
  BondInfo.__init__ tD mD fv ac freq ytm calendarDays = Returns b ->
  freq <> 0 /\ calendarDays = 360 /\
  BondInfo.fv b = fv /\
  BondInfo.pmt b = map (fun a => a / 100 * fv / IZR freq)%R ac /\
  BondInfo.y b = (ytm / 100 / IZR freq)%R /\
  BondInfo.ytm b = (ytm / 100)%R /\
  BondInfo.freq b = freq /\
  DayCount.calendar_360 tD mD freq
  = Returns (BondInfo.n b, BondInfo.T b, BondInfo.t b).
Proof.
  unfold BondInfo.__init__, BondInfo.calendar_360.
  destruct (Z.eqb_spec freq 0) as [|Hf]; [discriminate|].
  destruct (Z.eqb_spec calendarDays 360) as [Hc|]; [|discriminate].
  rewrite (calendar_360_returns tD mD freq Hf). cbn.
  intros H. inversion H. cbn. rewrite !map_map. repeat split; assumption.
Qed.

(** X16.  Building a [BondInfo] from the inputs of a [FixedRateBond] with the
    coupon rate repeated over its [n] periods gives the bond [as_series],
    and the residual of the fixed-rate class is, at every price and rate,
    the residual of that series bond. *)
Theorem series_of_repeated_coupon (tD mD : date) (fv ac : R) (freq : Z) (ytm : R)
    (calendarDays : Z) (bf : FixedRateBond.self) :
  FixedRateBond.__init__ tD mD fv ac freq ytm calendarDays = Returns bf ->
  BondInfo.__init__ tD mD fv (repeat ac (Z.to_nat (FixedRateBond.n bf))) freq ytm calendarDays
  = Returns (as_series bf) /\
  forall price x,
    FixedRateBond.ytm_couponList bf price x = BondInfo.equation (as_series bf) price x.
Proof.
  intros H. split; [|intros; apply FixedRateBond_residual_as_series].
  revert H. unfold FixedRateBond.__init__, BondInfo.__init__,
    FixedRateBond.calendar_360, BondInfo.calendar_360.
  destruct (Z.eqb_spec freq 0) as [|Hf]; [discriminate|].
  destruct (Z.eqb_spec calendarDays 360) as [Hc|]; [|discriminate].
  rewrite (calendar_360_returns tD mD freq Hf). cbn.
  intros H. inversion H. cbn. unfold as_series. cbn. rewrite !map_repeat. reflexivity.
Qed.

(** ** What pricing returns *)

Lemma stub_fraction_range (t T : Q) :
  (0 < T)%Q -> (0 < t)%Q -> (t <= T)%Q -> Qeq_bool t T = false ->
  (0 < Q2R t / Q2R T < 1)%R.
Proof.
  intros HT Ht Hle Hc. apply Qeq_bool_neq in Hc.
  assert (Hlt : (t < T)%Q).
  { destruct (Qlt_le_dec t T) as [H|H]; [exact H|].
    exfalso. apply Hc. apply Qle_antisym; assumption. }
  apply Qlt_Rlt in Hlt, HT, Ht. rewrite RMicromega.Q2R_0 in HT, Ht.
  split.
  - apply Rdiv_lt_0_compat; assumption.
  - apply Rmult_lt_reg_r with (Q2R T); [exact HT|].
    unfold Rdiv. rewrite Rmult_assoc, Rinv_l by lra. lra.
Qed.

(** X9.  For a fixed-rate bond built with [freq >= 1], a positive coupon rate
    and a positive face value, the accrued interest that [dirtyPrice]
    returns lies strictly between 0 and the coupon of one period. *)
Theorem FixedRateBond_accrued_within_coupon (tD mD : date) (fv ac : R) (freq : Z)
    (ytm : R) (calendarDays : Z) (b : FixedRateBond.self) (dirty accrued clean : R) :
  1 <= freq -> (0 < ac)%R -> (0 < fv)%R ->
  FixedRateBond.__init__ tD mD fv ac freq ytm calendarDays = Returns b ->
  FixedRateBond.dirtyPrice b = Returns (dirty, accrued, clean) ->
  (0 < accrued < FixedRateBond.pmt b)%R.
Proof.
  intros Hf Hac Hfv Hinit Hprice.
  destruct (FixedRateBond_init_inv _ _ _ _ _ _ _ _ Hinit)
    as (_ & _ & _ & Hp & _ & _ & _ & Hcal).
  assert (Hf0 : 0 < freq) by lia.
  destruct (calendar_360_facts _ _ _ _ _ _ Hf0 Hcal) as (HT & Ht & Hle & _).
  assert (Hc : FixedRateBond.on_coupon b = false).
  { destruct (FixedRateBond.on_coupon b) eqn:E; [|reflexivity].
    rewrite (FixedRateBond_dirtyPrice_on_coupon b E) in Hprice. discriminate. }
  pose proof (stub_fraction_range _ _ HT Ht Hle Hc) as Hs. fold (FixedRateBond.stub b) in Hs.
  assert (Hpos : (0 < FixedRateBond.pmt b)%R).
  { rewrite Hp. assert (0 < IZR freq)%R by (apply IZR_lt; lia).
    apply Rdiv_lt_0_compat; [|assumption]. apply Rmult_lt_0_compat; lra. }
  assert (Ea : accrued = (FixedRateBond.pmt b * FixedRateBond.stub b)%R).
  { unfold FixedRateBond.dirtyPrice in Hprice. rewrite Hc in Hprice.
    destruct (Req_EM_T (1 + FixedRateBond.y b) 0);
      [destruct (FixedRateBond.n b =? 0); [|discriminate]|];
      inversion Hprice; reflexivity. }
  rewrite Ea. split; nra.
Qed.

(** ** Zero yield *)

Lemma Rpower_base_1 (e : R) : Rpower 1 e = 1%R.
Proof. unfold Rpower. rewrite ln_1, Rmult_0_r. apply exp_0. Qed.

(** The coupons that pricing pairs with a period, plus the face value. *)
Lemma discounted_at_zero (b : BondInfo.self) :
  discounted b 0 =
  (Spec.big_sum (fun i => nth (i - 1) (BondInfo.pmt b) 0%R)
                (Nat.min (length (BondInfo.pmt b)) (Z.to_nat (BondInfo.n b)))
   + BondInfo.fv b)%R.
Proof.
  rewrite discounted_Rpower by lra. cbv zeta.
  replace (1 + 0)%R with 1%R by lra. rewrite Rpower_base_1.
  f_equal; [|lra]. apply big_sum_ext. intros i _. rewrite Rpower_base_1. lra.
Qed.

Lemma big_sum_nonneg (f : nat -> R) (n : nat) :
  (forall i, (1 <= i <= n)%nat -> (0 <= f i)%R) -> (0 <= Spec.big_sum f n)%R.
Proof.
  induction n as [|n IH]; intros H; cbn; [lra|].
  pose proof (IH ltac:(intros; apply H; lia)). pose proof (H (S n) ltac:(lia)). lra.
Qed.

Lemma discounted_pos (b : BondInfo.self) (x : R) :
  (0 < BondInfo.fv b)%R -> Forall (fun p => 0 <= p)%R (BondInfo.pmt b) ->
  (-1 < x)%R -> (0 < discounted b x)%R.
Proof.
  intros Hfv Hp Hx. rewrite discounted_Rpower by lra. cbv zeta.
  apply Rplus_le_lt_0_compat.
  - apply big_sum_nonneg. intros i Hi.
    apply Rmult_le_pos; [|apply Rlt_le, Rinv_0_lt_compat, Rpower_pos].
    destruct (proj1 (Forall_nth _ _) Hp (i - 1)%nat 0%R) as [H|H]; [lia|lra|lra].
  - apply Rdiv_lt_0_compat; [exact Hfv|apply Rpower_pos].
Qed.

(** At the price [-100] the residual of the script's series bond has no
    root above [-1] either: the discounted coupons are positive. *)
Lemma script_series_residual_without_root (x : R) :
  (-1 < x)%R -> BondInfo.equation Examples.script_series (-100) x <> 0%R.
Proof.
  intros Hx. rewrite equation_discounted.
  assert (H : (0 < discounted Examples.script_series x)%R).
  { apply discounted_pos; [cbn; lra| |exact Hx].
    cbn. repeat (constructor; [lra|]). constructor. }
  lra.
Qed.

(** X11.  At a per-period yield of zero the dirty price that
    [BondInfo.dirtyPrice] returns is the plain sum of the coupons it pairs
    with a period (the first [min(len(pmt), n)]) and the face value, on a
    coupon date or between two. *)
Theorem BondInfo_dirtyPrice_zero_yield (b : BondInfo.self) (dirty accrued clean : R) :
  BondInfo.y b = 0%R ->
  BondInfo.dirtyPrice b = Returns (dirty, accrued, clean) ->
  dirty = (Spec.big_sum (fun i => nth (i - 1) (BondInfo.pmt b) 0%R)
                        (Nat.min (length (BondInfo.pmt b)) (Z.to_nat (BondInfo.n b)))
           + BondInfo.fv b)%R.
Proof.
  intros Hy Hp. rewrite (dirtyPrice_returns_discounted b _ _ _ Hp), Hy.
  apply discounted_at_zero.
Qed.

(** X12.  For a series bond with positive face value, no negative coupon,
    [n >= 1] and [y > -1], the dirty price returned is positive, and for
    [y >= 0] it is at most the undiscounted sum of the coupons and the face
    value. *)
Theorem BondInfo_dirtyPrice_bounds (b : BondInfo.self) (dirty accrued clean : R) :
  (0 < BondInfo.fv b)%R -> Forall (fun p => 0 <= p)%R (BondInfo.pmt b) ->
  1 <= BondInfo.n b ->
  (0 < BondInfo.T b)%Q -> (BondInfo.t b <= BondInfo.T b)%Q ->
  (-1 < BondInfo.y b)%R ->
  BondInfo.dirtyPrice b = Returns (dirty, accrued, clean) ->
  (0 < dirty)%R /\
  ((0 <= BondInfo.y b)%R ->
   (dirty <= Spec.big_sum (fun i => nth (i - 1) (BondInfo.pmt b) 0%R)
                          (Nat.min (length (BondInfo.pmt b)) (Z.to_nat (BondInfo.n b)))
             + BondInfo.fv b)%R).
Proof.
  intros Hfv Hp Hn HT Ht Hy Hprice.
  rewrite (dirtyPrice_returns_discounted b _ _ _ Hprice). split.
  - apply discounted_pos; assumption.
  - intros Hy0. rewrite <- discounted_at_zero.
    destruct Hy0 as [Hpos|E]; [|rewrite <- E; lra].
    apply Rlt_le. apply discounted_decreasing; try assumption. lra.
Qed.

(** ** The residual *)

(** X14.  For a series bond with positive face value, no negative coupon and
    [n >= 1], the residual handed to the solver falls strictly as the rate
    rises on [x > -1], so it has at most one root there. *)
Theorem BondInfo_residual_decreasing (b : BondInfo.self) (price x1 x2 : R) :
  (0 < BondInfo.fv b)%R -> Forall (fun p => 0 <= p)%R (BondInfo.pmt b) ->
  1 <= BondInfo.n b ->
  (0 < BondInfo.T b)%Q -> (BondInfo.t b <= BondInfo.T b)%Q ->
  (-1 < x1)%R -> (-1 < x2)%R ->
  ((x1 < x2)%R -> (BondInfo.equation b price x2 < BondInfo.equation b price x1)%R) /\
  (BondInfo.equation b price x1 = 0%R -> BondInfo.equation b price x2 = 0%R -> x1 = x2).
Proof.
  intros Hfv Hp Hn HT Ht H1 H2. rewrite !equation_discounted. split.
  - intros H. pose proof (discounted_decreasing b x1 x2 Hfv Hp Hn HT Ht H1 H). lra.
  - intros E1 E2. apply (discounted_injective b); try assumption. lra.
Qed.

(** ** Yield in, yield out *)

Lemma discounted_same_schedule (b1 b2 : BondInfo.self) (x : R) :
  BondInfo.pmt b1 = BondInfo.pmt b2 -> BondInfo.fv b1 = BondInfo.fv b2 ->
  BondInfo.n b1 = BondInfo.n b2 -> BondInfo.t b1 = BondInfo.t b2 ->
  BondInfo.T b1 = BondInfo.T b2 ->
  discounted b1 x = discounted b2 x.
Proof.
  intros Hp Hfv Hn Ht HT.
  unfold discounted, BondInfo.on_coupon, BondInfo.dirty_on_coupon, BondInfo.dirty_stub,
    BondInfo.stub.
  rewrite Hp, Hfv, Hn, Ht, HT. reflexivity.
Qed.

Lemma coupons_nonnegative (fv : R) (freq : Z) (ac : list R) :
  (0 < fv)%R -> 1 <= freq -> Forall (fun a => 0 <= a)%R ac ->
  Forall (fun p => 0 <= p)%R (map (fun a => a / 100 * fv / IZR freq)%R ac).
Proof.
  intros Hfv Hf Hac. apply Forall_map. eapply Forall_impl; [|exact Hac].
  intros a Ha. cbv beta. assert (0 < IZR freq)%R by (apply IZR_lt; lia).
  apply Rmult_le_pos; [|apply Rlt_le, Rinv_0_lt_compat; assumption].
  apply Rmult_le_pos; lra.
Qed.

Lemma per_period_yield_gt_minus_1 (ytm : R) (freq : Z) :
  1 <= freq -> (-100 * IZR freq < ytm)%R -> (-1 < ytm / 100 / IZR freq)%R.
Proof.
  intros Hf H. assert (Hq : (0 < IZR freq)%R) by (apply IZR_lt; lia).
  apply Rmult_lt_reg_r with (IZR freq); [exact Hq|].
  unfold Rdiv. rewrite Rmult_assoc, Rinv_l by lra. lra.
Qed.

Lemma per_period_yield_monotone (ytm1 ytm2 : R) (freq : Z) :
  1 <= freq -> (ytm1 < ytm2)%R -> (ytm1 / 100 / IZR freq < ytm2 / 100 / IZR freq)%R.
Proof.
  intros Hf H. assert (Hq : (0 < IZR freq)%R) by (apply IZR_lt; lia).
  unfold Rdiv. apply Rmult_lt_compat_r; [apply Rinv_0_lt_compat; exact Hq|]. lra.
Qed.

(** What a constructed series bond satisfies, for the monotonicity and
    uniqueness lemmas. *)
Lemma BondInfo_init_valid (tD mD : date) (fv : R) (ac : list R) (freq : Z) (ytm : R)
    (calendarDays : Z) (b : BondInfo.self) :
  1 <= freq -> (0 < fv)%R -> Forall (fun a => 0 <= a)%R ac ->
  1 <= DayCount.n_days tD mD ->
  BondInfo.__init__ tD mD fv ac freq ytm calendarDays = Returns b ->
  (0 < BondInfo.fv b)%R /\ Forall (fun p => 0 <= p)%R (BondInfo.pmt b) /\
  1 <= BondInfo.n b /\ (0 < BondInfo.T b)%Q /\ (BondInfo.t b <= BondInfo.T b)%Q.
Proof.
  intros Hf Hfv Hac Hnd Hinit.
  destruct (BondInfo_init_inv _ _ _ _ _ _ _ _ Hinit)
    as (_ & _ & Efv & Ep & _ & _ & _ & Hcal).
  assert (Hf0 : 0 < freq) by lia.
  destruct (calendar_360_facts _ _ _ _ _ _ Hf0 Hcal) as (HT & _ & Hle & En).
  rewrite Efv, Ep, En. repeat split; try assumption.
  - apply coupons_nonnegative; assumption.
  - apply period_count_ge_1; assumption.
Qed.

(** X13.  Two series bonds built from the same inputs but for the annual
    yield: the one with the higher yield has the strictly lower dirty
    price (face value positive, no negative coupon rate, day count at
    least 1, yields above [-100 * freq] percent). *)
Theorem BondInfo_price_falls_as_yield_rises (tD mD : date) (fv : R) (ac : list R)
    (freq : Z) (ytm1 ytm2 : R) (calendarDays : Z) (b1 b2 : BondInfo.self)
    (p1 a1 c1 p2 a2 c2 : R) :
  1 <= freq -> (0 < fv)%R -> Forall (fun a => 0 <= a)%R ac ->
  1 <= DayCount.n_days tD mD ->
  (-100 * IZR freq < ytm1)%R -> (ytm1 < ytm2)%R ->
  BondInfo.__init__ tD mD fv ac freq ytm1 calendarDays = Returns b1 ->
  BondInfo.__init__ tD mD fv ac freq ytm2 calendarDays = Returns b2 ->
  BondInfo.dirtyPrice b1 = Returns (p1, a1, c1) ->
  BondInfo.dirtyPrice b2 = Returns (p2, a2, c2) ->
  (p2 < p1)%R.
Proof.
  intros Hf Hfv Hac Hnd Hy1 Hy12 Hi1 Hi2 Hp1 Hp2.
  destruct (BondInfo_init_valid _ _ _ _ _ _ _ _ Hf Hfv Hac Hnd Hi1)
    as (Hfv1 & Hpm1 & Hn1 & HT1 & Ht1).
  destruct (BondInfo_init_inv _ _ _ _ _ _ _ _ Hi1)
    as (_ & _ & Efv1 & Ep1 & Ey1 & _ & _ & Hcal1).
  destruct (BondInfo_init_inv _ _ _ _ _ _ _ _ Hi2)
    as (_ & _ & Efv2 & Ep2 & Ey2 & _ & _ & Hcal2).
  rewrite Hcal1 in Hcal2. inversion Hcal2 as [[En ET Et]].
  rewrite (dirtyPrice_returns_discounted b1 _ _ _ Hp1).
  rewrite (dirtyPrice_returns_discounted b2 _ _ _ Hp2).
  rewrite <- (discounted_same_schedule b1 b2) by congruence.
  apply discounted_decreasing; try assumption.
  - rewrite Ey1. apply per_period_yield_gt_minus_1; assumption.
  - rewrite Ey1, Ey2. apply per_period_yield_monotone; assumption.
Qed.

(** X15.  A series bond built with the annual yield [ytm] in percent and
    priced: when the solver hands back a root [r > -1] of the residual at
    that dirty price, [ytm_couponList] returns [ytm / 100], the fraction
    that [__init__] stored in [self.ytm], not the percentage passed in. *)
Theorem ytm_round_trip_in_percent (newton : solver) (tD mD : date) (fv : R)
    (ac : list R) (freq : Z) (ytm : R) (calendarDays : Z) (b : BondInfo.self)
    (price accrued clean r : R) :
  1 <= freq -> (0 < fv)%R -> Forall (fun a => 0 <= a)%R ac ->
  1 <= DayCount.n_days tD mD ->
  (-100 * IZR freq < ytm)%R ->
  BondInfo.__init__ tD mD fv ac freq ytm calendarDays = Returns b ->
  BondInfo.dirtyPrice b = Returns (price, accrued, clean) ->
  newton (BondInfo.equation b price) (5 / 100)%R 1000%nat = Returns r ->
  (-1 < r)%R -> BondInfo.equation b price r = 0%R ->
  BondInfo.ytm_couponList newton b price = Returns (ytm / 100)%R /\
  BondInfo.ytm b = (ytm / 100)%R.
Proof.
  intros Hf Hfv Hac Hnd Hy Hinit Hprice Hnewton Hr Hroot.
  destruct (BondInfo_init_valid _ _ _ _ _ _ _ _ Hf Hfv Hac Hnd Hinit)
    as (Hfv1 & Hpm1 & Hn1 & HT1 & Ht1).
  destruct (BondInfo_init_inv _ _ _ _ _ _ _ _ Hinit)
    as (_ & _ & _ & _ & Ey & Eytm & Efreq & _).
  assert (Hyb : (-1 < BondInfo.y b)%R)
    by (rewrite Ey; apply per_period_yield_gt_minus_1; assumption).
  assert (E : r = BondInfo.y b).
  { apply (discounted_injective b); try assumption.
    rewrite equation_discounted in Hroot.
    rewrite <- (dirtyPrice_returns_discounted b _ _ _ Hprice). lra. }
  split; [|exact Eytm].
  rewrite (ytm_couponList_of_root newton b price r Hnewton), E, Ey, Efreq.
  f_equal. assert (IZR freq <> 0)%R by (apply not_0_IZR; lia). field. assumption.
Qed.

(** ** The series class on a coupon date *)

(** X19.  On a coupon date, within the binary64 range of the closed form:
    what [FixedRateBond.simplePrice] returns is the dirty and the clean
    price that [BondInfo.dirtyPrice] returns for the series with the coupon
    repeated, with accrued interest 0. *)
Theorem series_on_coupon_price_is_simplePrice (bf : FixedRateBond.self) :
  FixedRateBond.on_coupon bf = true ->
  closed_form_range (FixedRateBond.n bf) (FixedRateBond.y bf) (FixedRateBond.fv bf)
                    (FixedRateBond.pmt bf) ->
  exists price clean,
    FixedRateBond.simplePrice bf = Returns price /\
    BondInfo.dirtyPrice (as_series bf) = Returns (price, 0%R, clean) /\
    clean = price.
Proof.
  intros Hc Hr. destruct (closed_form_range_facts _ _ _ _ Hr) as (Hn & _ & Hq & _ & Hy).
  exists (FixedRateBond.simplePrice_value bf), (FixedRateBond.simplePrice_value bf - 0)%R.
  split; [apply simplePrice_returns_value; exact Hq|]. split; [|lra].
  rewrite (BondInfo_dirtyPrice_on_coupon (as_series bf)) by (assumption || exact Hc).
  rewrite (FixedRateBond_simplePrice_discounted bf Hc Hn Hq Hy).
  unfold discounted. rewrite as_series_on_coupon, Hc. reflexivity.
Qed.

(** ** [IRR] *)

Lemma combine_map_map {A B C : Type} (f : A -> B) (g : A -> C) (l : list A) :
  combine (map f l) (map g l) = map (fun a => (f a, g a)) l.
Proof. induction l as [|a l IH]; cbn; [reflexivity|rewrite IH; reflexivity]. Qed.

(** X20.  For a series bond on a coupon date whose series covers its
    [n >= 1] periods, the residual of [IRR] on the bond's payments (coupon
    each period, face value added to the last) and period numbers [1..n] is
    the residual of [BondInfo.ytm_couponList] at every price and rate. *)
Theorem IRR_residual_is_on_coupon_residual (b : BondInfo.self) (price x : R) :
  BondInfo.on_coupon b = true -> 1 <= BondInfo.n b ->
  (Z.to_nat (BondInfo.n b) <= length (BondInfo.pmt b))%nat ->
  bondmath.equation price (cash_flows_of b) (period_numbers b) x
  = BondInfo.equation b price x.
Proof.
  intros Hc Hn Hlen.
  unfold bondmath.equation, BondInfo.equation, cash_flows_of, period_numbers, periods.
  rewrite Hc, combine_map_map, map_map, py_sum_map_seq.
  rewrite BondInfo_dirty_on_coupon_sum, Nat.min_r by exact Hlen.
  rewrite (big_sum_ext _ (fun i => Spec.amount (fun j => nth (j - 1) (BondInfo.pmt b) 0%R)
                                     (BondInfo.fv b) (Z.to_nat (BondInfo.n b)) i
                                   / (1 + x) ^ i)%R)
    by (intros; rewrite pow_powerRZ; reflexivity).
  rewrite (big_sum_amount _ _ (fun i => (1 + x) ^ i)%R) by lia.
  assert (E : powerRZ (1 + x) (BondInfo.n b) = ((1 + x) ^ Z.to_nat (BondInfo.n b))%R).
  { rewrite pow_powerRZ. f_equal. lia. }
  rewrite E. reflexivity.
Qed.

(** X21.  When [cash_flows[0] / price < price], [IRR] does not use the
    caller's [estimate]: any two values of it give the same outcome. *)
Theorem IRR_estimate_overridden (G : bondmath.globals) (newton : solver)
    (cf0 : R) (rest : list R) (N : list Z) (estimate1 estimate2 price : R) :
  bondmath.g_price G = Some price -> (cf0 / price < price)%R ->
  bondmath.IRR G newton (cf0 :: rest) N estimate1
  = bondmath.IRR G newton (cf0 :: rest) N estimate2.
Proof.
  intros Hp Hlt. unfold bondmath.IRR. rewrite Hp.
  destruct (Req_EM_T price 0); [reflexivity|].
  destruct (Rlt_dec (cf0 / price) price); [reflexivity|contradiction].
Qed.

(** ** The simple price of a series *)

Lemma closed_form_on_coupon_sum (pmt fv y : R) (n : Z) :
  1 <= n -> (1 + y <> 0)%R -> (y <> 0)%R ->
  (pmt / y * (1 - 1 / powerRZ (1 + y) n) + fv / powerRZ (1 + y) n)%R
  = Spec.on_coupon_dirty (Spec.amount (fun _ => pmt) fv (Z.to_nat n)) (Z.to_nat n) y.
Proof.
  intros Hn Hq Hy. unfold Spec.on_coupon_dirty.
  rewrite (big_sum_amount (fun _ => pmt) fv (fun i => (1 + y) ^ i)%R) by lia.
  rewrite annuity_sum by assumption.
  assert (E : powerRZ (1 + y) n = ((1 + y) ^ Z.to_nat n)%R).
  { rewrite pow_powerRZ. f_equal. lia. }
  rewrite E. unfold Rdiv. ring.
Qed.

(** X7.  Within the binary64 range of the closed form ([1 <= n <= 500],
    [1/2 <= 1 + y <= 2], [|y| >= 1/1000], amounts up to [10^9]),
    [BondInfo.simplePrice] returns one price per entry of the series, and
    entry [k] is the discounted value of [n] payments of that one coupon
    [pmt[k]] plus the face value: the price of a constant-coupon bond, not
    of the series. *)
Theorem BondInfo_simplePrice_entries (b : BondInfo.self) :
  closed_form_range (BondInfo.n b) (BondInfo.y b) (BondInfo.fv b) 0 ->
  Forall moderate (BondInfo.pmt b) ->
  exists prices,
    BondInfo.simplePrice b = Returns prices /\
    length prices = length (BondInfo.pmt b) /\
    forall k, (k < length (BondInfo.pmt b))%nat ->
      nth k prices 0%R =
      Spec.on_coupon_dirty
        (Spec.amount (fun _ => nth k (BondInfo.pmt b) 0%R) (BondInfo.fv b)
                     (Z.to_nat (BondInfo.n b)))
        (Z.to_nat (BondInfo.n b)) (BondInfo.y b).
Proof.
  intros Hr _. destruct (closed_form_range_facts _ _ _ _ Hr) as (Hn & _ & Hq & _ & Hy).
  exists (BondInfo.simplePrice_values b). split; [|split].
  - unfold BondInfo.simplePrice.
    destruct (Req_EM_T (1 + BondInfo.y b) 0); [contradiction|reflexivity].
  - unfold BondInfo.simplePrice_values. apply length_map.
  - intros k Hk. unfold BondInfo.simplePrice_values.
    set (f := fun pmt : R => _).
    rewrite (nth_indep _ 0%R (f 0%R)) by (rewrite length_map; exact Hk).
    rewrite map_nth. unfold f. apply closed_form_on_coupon_sum; assumption.
Qed.

(** ** Coupon dates *)

(** X3.  For a fixed-rate bond built from calendar dates [tD < mD] at most
    a hundred years apart with a frequency of 1, 2, 3, 4, 6 or 12,
    [dirtyPrice] raises [NameError] exactly when the day count is a whole
    number of periods, that is when 360 divides [n_days * freq]; the test
    [t == T] it branches on has the same value on binary64. *)
Theorem FixedRateBond_unpriced_iff_whole_periods (tD mD : date) (fv ac : R)
    (freq : Z) (ytm : R) (calendarDays : Z) (b : FixedRateBond.self) :
  valid_date tD -> valid_date mD -> date_lt tD mD -> year mD - year tD <= 100 ->
  In freq standard_frequencies ->
  FixedRateBond.__init__ tD mD fv ac freq ytm calendarDays = Returns b ->
  (FixedRateBond.dirtyPrice b = Raises NameError <->
   (DayCount.n_days tD mD * freq) mod 360 = 0) /\
  exists n T t,
    DayCountFloat.calendar_360 tD mD freq = Some (Returns (n, T, t)) /\
    PrimFloat.eqb t T = FixedRateBond.on_coupon b.
Proof.
  intros Hvt Hvm Hlt Hcent Hin Hinit.
  destruct (standard_frequency_divides freq Hin) as [Hf _].
  split.
  2:{ pose proof (n_days_century tD mD Hvt Hvm Hlt Hcent) as Hnd.
      destruct (period_of_days_exact tD mD freq Hin Hnd)
        as (n & T & t & qT & qt & Tq & tq & Hfl & _ & _ & Hex & _ & _ & Heqb).
      destruct (FixedRateBond_init_inv _ _ _ _ _ _ _ _ Hinit)
        as (_ & _ & _ & _ & _ & _ & _ & Hcal).
      rewrite Hex in Hcal. inversion Hcal as [[En ET Et]].
      exists n, T, t. split; [exact Hfl|]. rewrite Heqb, ET, Et. reflexivity. }
  destruct (FixedRateBond_init_inv _ _ _ _ _ _ _ _ Hinit)
    as (_ & _ & _ & _ & _ & _ & _ & Hcal).
  destruct (calendar_360_integer_form tD mD freq Hf) as (T & t & Hc & HT & Ht).
  cbv zeta in Hc, Ht. rewrite Hcal in Hc. inversion Hc as [[En ET Et]]. clear Hc.
  set (a := DayCount.n_days tD mD * freq) in *.
  pose proof (inject_Z_freq_nonzero freq Hf) as HF0.
  assert (Hon : FixedRateBond.on_coupon b = true <-> a mod 360 = 0).
  { unfold FixedRateBond.on_coupon. rewrite ET, Et, Qeq_bool_iff, Ht, HT. split.
    - intros E. apply Qdiv_inj_pos in E; [|exact HF0].
      unfold Qeq in E. cbn [Qnum Qden inject_Z] in E. rewrite !Z.mul_1_r in E.
      pose proof (Z.mod_pos_bound a 360 ltac:(lia)). lia.
    - intros E. rewrite E. reflexivity. }
  rewrite <- Hon. split.
  - intros H. destruct (FixedRateBond.on_coupon b) eqn:E; [reflexivity|].
    unfold FixedRateBond.dirtyPrice in H. rewrite E in H.
    destruct (Req_EM_T (1 + FixedRateBond.y b) 0);
      [destruct (FixedRateBond.n b =? 0)|]; discriminate.
  - apply FixedRateBond_dirtyPrice_on_coupon.
Qed.

(** X4.  When both dates are the last day of a February, or neither is and
    they fall on the same day of the month, the 30/360 day count is 360
    per year plus 30 per month of difference. *)
Theorem n_days_whole_months (tD mD : date) :
  day tD <= 31 ->
  Spec.last_of_february tD = Spec.last_of_february mD ->
  Spec.last_of_february tD = true \/ day tD = day mD ->
  DayCount.n_days tD mD = 360 * (year mD - year tD) + 30 * (month mD - month tD).
Proof.
  intros Hd Hsame Hcase.
  unfold DayCount.n_days, DayCount.normalize_days.
  unfold Spec.last_of_february in Hsame, Hcase.
  destruct ((month tD =? 2) && (day tD =? monthrange_days (year tD) (month tD))) eqn:Et;
  rewrite <- Hsame.
  - cbn. lia.
  - destruct Hcase as [H|H]; [discriminate|]. rewrite <- H.
    case_tests; cbv beta iota zeta delta [orb andb]; lia.
Qed.

(** ** The properties above at the example inputs *)

Lemma script_fixed_dirtyPrice :
  FixedRateBond.dirtyPrice Examples.script_fixed =
  Returns (FixedRateBond.dirty_stub Examples.script_fixed,
           (FixedRateBond.pmt Examples.script_fixed
            * FixedRateBond.stub Examples.script_fixed)%R,
           (FixedRateBond.dirty_stub Examples.script_fixed
            - FixedRateBond.pmt Examples.script_fixed
              * FixedRateBond.stub Examples.script_fixed)%R).
Proof. apply FixedRateBond_dirtyPrice_stub; [reflexivity|cbn; lra]. Qed.

Lemma script_series_at_10_dirtyPrice :
  BondInfo.dirtyPrice Examples.script_series_at_10 =
  Returns (BondInfo.dirty_stub Examples.script_series_at_10
             (BondInfo.y Examples.script_series_at_10),
           (8 / 100 * 100 / 2 * BondInfo.stub Examples.script_series_at_10)%R,
           (BondInfo.dirty_stub Examples.script_series_at_10
              (BondInfo.y Examples.script_series_at_10)
            - 8 / 100 * 100 / 2 * BondInfo.stub Examples.script_series_at_10)%R).
Proof. apply BondInfo_dirtyPrice_stub; [reflexivity|cbn; lra|reflexivity]. Qed.

Lemma zero_yield_series_dirtyPrice :
  BondInfo.dirtyPrice Examples.zero_yield_series =
  Returns (BondInfo.dirty_on_coupon Examples.zero_yield_series
             (BondInfo.y Examples.zero_yield_series), 0%R,
           (BondInfo.dirty_on_coupon Examples.zero_yield_series
              (BondInfo.y Examples.zero_yield_series) - 0)%R).
Proof. apply BondInfo_dirtyPrice_on_coupon; [reflexivity|cbn; lra]. Qed.

Lemma script_series_coupons_nonnegative :
  Forall (fun p => 0 <= p)%R (BondInfo.pmt Examples.script_series).
Proof. cbn. repeat (constructor; [lra|]). constructor. Qed.

Lemma script_rates_nonnegative : Forall (fun a => 0 <= a)%R (repeat 8%R 20).
Proof. cbn. repeat (constructor; [lra|]). constructor. Qed.

Lemma script_dates_valid :
  valid_date Examples.d_2011_02_14 /\ valid_date Examples.d_2020_11_15 /\
  date_lt Examples.d_2011_02_14 Examples.d_2020_11_15.
Proof.
  repeat split; try (unfold valid_date; cbn; lia). unfold date_lt; cbn; lia.
Qed.

Lemma period_count_nonnegative_witness :
  exists n T t,
    DayCount.calendar_360 Examples.d_2011_02_14 Examples.d_2020_11_15 2
      = Returns (n, T, t) /\
    0 <= n /\
    (n = 0 <->
     year Examples.d_2011_02_14 = year Examples.d_2020_11_15 /\
     month Examples.d_2011_02_14 = month Examples.d_2020_11_15 /\
     day Examples.d_2011_02_14 = 30 /\ day Examples.d_2020_11_15 = 31).
Proof.
  apply period_count_nonnegative.
  - unfold valid_date; cbn; lia.
  - unfold valid_date; cbn; lia.
  - unfold date_lt; cbn; lia.
  - lia.
Defined.

Lemma FixedRateBond_unpriced_iff_whole_periods_witness :
  (FixedRateBond.dirtyPrice Examples.on_coupon_fixed = Raises NameError <->
   (DayCount.n_days Examples.d_2010_11_15 Examples.d_2020_11_15 * 2) mod 360 = 0) /\
  exists n T t,
    DayCountFloat.calendar_360 Examples.d_2010_11_15 Examples.d_2020_11_15 2
      = Some (Returns (n, T, t)) /\
    PrimFloat.eqb t T = FixedRateBond.on_coupon Examples.on_coupon_fixed.
Proof.
  apply (FixedRateBond_unpriced_iff_whole_periods
           Examples.d_2010_11_15 Examples.d_2020_11_15 100 8 2 8 360).
  - unfold valid_date; cbn; lia.
  - unfold valid_date; cbn; lia.
  - unfold date_lt; cbn; lia.
  - cbn; lia.
  - cbn; tauto.
  - reflexivity.
Defined.

Lemma n_days_whole_months_witness :
  DayCount.n_days Examples.d_2011_02_28 Examples.d_2012_02_29
  = 360 * (year Examples.d_2012_02_29 - year Examples.d_2011_02_28)
    + 30 * (month Examples.d_2012_02_29 - month Examples.d_2011_02_28).
Proof.
  apply n_days_whole_months.
  - cbn; lia.
  - reflexivity.
  - left; reflexivity.
Defined.

Lemma on_coupon_fixed_in_range :
  closed_form_range (FixedRateBond.n Examples.on_coupon_fixed)
    (FixedRateBond.y Examples.on_coupon_fixed) (FixedRateBond.fv Examples.on_coupon_fixed)
    (FixedRateBond.pmt Examples.on_coupon_fixed).
Proof.
  unfold closed_form_range, moderate. cbn.
  split; [lia|]. split; [lra|]. split; [right; lra|]. split; lra.
Qed.

Lemma script_fixed_in_range :
  closed_form_range (FixedRateBond.n Examples.script_fixed)
    (FixedRateBond.y Examples.script_fixed) (FixedRateBond.fv Examples.script_fixed)
    (FixedRateBond.pmt Examples.script_fixed).
Proof.
  unfold closed_form_range, moderate. cbn.
  split; [lia|]. split; [lra|]. split; [right; lra|]. split; lra.
Qed.

Lemma short_series_in_closed_form_range :
  closed_form_range (BondInfo.n Examples.short_series) (BondInfo.y Examples.short_series)
    (BondInfo.fv Examples.short_series) 0.
Proof.
  unfold closed_form_range, moderate. cbn.
  split; [lia|]. split; [lra|]. split; [right; lra|]. split; lra.
Qed.

Lemma simplePrice_discounted_cash_flows_witness :
  FixedRateBond.simplePrice Examples.on_coupon_fixed =
  Returns (Spec.on_coupon_dirty
             (Spec.amount (fun _ => FixedRateBond.pmt Examples.on_coupon_fixed)
                          (FixedRateBond.fv Examples.on_coupon_fixed)
                          (Z.to_nat (FixedRateBond.n Examples.on_coupon_fixed)))
             (Z.to_nat (FixedRateBond.n Examples.on_coupon_fixed))
             (FixedRateBond.y Examples.on_coupon_fixed)).
Proof.
  apply simplePrice_discounted_cash_flows. exact on_coupon_fixed_in_range.
Defined.

Lemma simplePrice_par_premium_discount_witness :
  ((FixedRateBond.pmt Examples.on_coupon_fixed
    = FixedRateBond.y Examples.on_coupon_fixed * FixedRateBond.fv Examples.on_coupon_fixed)%R ->
   FixedRateBond.simplePrice_value Examples.on_coupon_fixed
   = FixedRateBond.fv Examples.on_coupon_fixed) /\
  ((FixedRateBond.pmt Examples.on_coupon_fixed
    > FixedRateBond.y Examples.on_coupon_fixed * FixedRateBond.fv Examples.on_coupon_fixed)%R ->
   (FixedRateBond.simplePrice_value Examples.on_coupon_fixed
    > FixedRateBond.fv Examples.on_coupon_fixed)%R) /\
  ((FixedRateBond.pmt Examples.on_coupon_fixed
    < FixedRateBond.y Examples.on_coupon_fixed * FixedRateBond.fv Examples.on_coupon_fixed)%R ->
   (FixedRateBond.simplePrice_value Examples.on_coupon_fixed
    < FixedRateBond.fv Examples.on_coupon_fixed)%R).
Proof.
  apply (simplePrice_par_premium_discount Examples.on_coupon_fixed).
  - exact on_coupon_fixed_in_range.
  - apply simplePrice_returns_value. cbn; lra.
Defined.

Lemma BondInfo_simplePrice_entries_witness :
  exists prices,
    BondInfo.simplePrice Examples.short_series = Returns prices /\
    length prices = length (BondInfo.pmt Examples.short_series) /\
    forall k, (k < length (BondInfo.pmt Examples.short_series))%nat ->
      nth k prices 0%R =
      Spec.on_coupon_dirty
        (Spec.amount (fun _ => nth k (BondInfo.pmt Examples.short_series) 0%R)
                     (BondInfo.fv Examples.short_series)
                     (Z.to_nat (BondInfo.n Examples.short_series)))
        (Z.to_nat (BondInfo.n Examples.short_series))
        (BondInfo.y Examples.short_series).
Proof.
  apply BondInfo_simplePrice_entries.
  - exact short_series_in_closed_form_range.
  - destruct short_series_in_range as (_ & _ & _ & H). exact H.
Defined.

Lemma FixedRateBond_accrued_within_coupon_witness :
  (0 < FixedRateBond.pmt Examples.script_fixed * FixedRateBond.stub Examples.script_fixed
   < FixedRateBond.pmt Examples.script_fixed)%R.
Proof.
  apply (FixedRateBond_accrued_within_coupon
           Examples.d_2011_02_14 Examples.d_2020_11_15 100 8 2 8 360 Examples.script_fixed
           (FixedRateBond.dirty_stub Examples.script_fixed)
           (FixedRateBond.pmt Examples.script_fixed * FixedRateBond.stub Examples.script_fixed)
           (FixedRateBond.dirty_stub Examples.script_fixed
            - FixedRateBond.pmt Examples.script_fixed
              * FixedRateBond.stub Examples.script_fixed)).
  - lia.
  - lra.
  - lra.
  - reflexivity.
  - exact script_fixed_dirtyPrice.
Defined.

Lemma BondInfo_dirtyPrice_zero_yield_witness :
  BondInfo.dirty_on_coupon Examples.zero_yield_series (BondInfo.y Examples.zero_yield_series)
  = (Spec.big_sum (fun i => nth (i - 1) (BondInfo.pmt Examples.zero_yield_series) 0%R)
       (Nat.min (length (BondInfo.pmt Examples.zero_yield_series))
                (Z.to_nat (BondInfo.n Examples.zero_yield_series)))
     + BondInfo.fv Examples.zero_yield_series)%R.
Proof.
  apply (BondInfo_dirtyPrice_zero_yield Examples.zero_yield_series _ 0%R
           (BondInfo.dirty_on_coupon Examples.zero_yield_series
              (BondInfo.y Examples.zero_yield_series) - 0)%R).
  - cbn; lra.
  - exact zero_yield_series_dirtyPrice.
Defined.

Lemma BondInfo_dirtyPrice_bounds_witness :
  (0 < BondInfo.dirty_stub Examples.script_series (BondInfo.y Examples.script_series))%R /\
  ((0 <= BondInfo.y Examples.script_series)%R ->
   (BondInfo.dirty_stub Examples.script_series (BondInfo.y Examples.script_series)
    <= Spec.big_sum (fun i => nth (i - 1) (BondInfo.pmt Examples.script_series) 0%R)
         (Nat.min (length (BondInfo.pmt Examples.script_series))
                  (Z.to_nat (BondInfo.n Examples.script_series)))
       + BondInfo.fv Examples.script_series)%R).
Proof.
  apply (BondInfo_dirtyPrice_bounds Examples.script_series _
           (8 / 100 * 100 / 2 * BondInfo.stub Examples.script_series)%R
           (BondInfo.dirty_stub Examples.script_series (BondInfo.y Examples.script_series)
            - 8 / 100 * 100 / 2 * BondInfo.stub Examples.script_series)%R).
  - cbn; lra.
  - exact script_series_coupons_nonnegative.
  - cbn; lia.
  - reflexivity.
  - cbn. unfold Qle. cbn. lia.
  - cbn; lra.
  - exact script_series_dirtyPrice.
Defined.

Lemma BondInfo_price_falls_as_yield_rises_witness :
  (BondInfo.dirty_stub Examples.script_series_at_10
     (BondInfo.y Examples.script_series_at_10)
   < BondInfo.dirty_stub Examples.script_series (BondInfo.y Examples.script_series))%R.
Proof.
  apply (BondInfo_price_falls_as_yield_rises
           Examples.d_2011_02_14 Examples.d_2020_11_15 100 (repeat 8%R 20) 2 8 10 360
           Examples.script_series Examples.script_series_at_10
           _ (8 / 100 * 100 / 2 * BondInfo.stub Examples.script_series)%R
           (BondInfo.dirty_stub Examples.script_series (BondInfo.y Examples.script_series)
            - 8 / 100 * 100 / 2 * BondInfo.stub Examples.script_series)%R
           _ (8 / 100 * 100 / 2 * BondInfo.stub Examples.script_series_at_10)%R
           (BondInfo.dirty_stub Examples.script_series_at_10
              (BondInfo.y Examples.script_series_at_10)
            - 8 / 100 * 100 / 2 * BondInfo.stub Examples.script_series_at_10)%R).
  - lia.
  - lra.
  - exact script_rates_nonnegative.
  - vm_compute. discriminate.
  - lra.
  - lra.
  - reflexivity.
  - reflexivity.
  - exact script_series_dirtyPrice.
  - exact script_series_at_10_dirtyPrice.
Defined.

Lemma BondInfo_residual_decreasing_witness :
  ((4 / 100 < 5 / 100)%R ->
   (BondInfo.equation Examples.script_series 100 (5 / 100)
    < BondInfo.equation Examples.script_series 100 (4 / 100))%R) /\
  (BondInfo.equation Examples.script_series 100 (4 / 100) = 0%R ->
   BondInfo.equation Examples.script_series 100 (5 / 100) = 0%R ->
   (4 / 100)%R = (5 / 100)%R).
Proof.
  apply BondInfo_residual_decreasing.
  - cbn; lra.
  - exact script_series_coupons_nonnegative.
  - cbn; lia.
  - reflexivity.
  - cbn. unfold Qle. cbn. lia.
  - lra.
  - lra.
Defined.

Lemma ytm_round_trip_in_percent_witness :
  BondInfo.ytm_couponList (exact_solver (4 / 100)) Examples.script_series
    (BondInfo.dirty_stub Examples.script_series (BondInfo.y Examples.script_series))
  = Returns (8 / 100)%R /\
  BondInfo.ytm Examples.script_series = (8 / 100)%R.
Proof.
  apply (ytm_round_trip_in_percent (exact_solver (4 / 100))
           Examples.d_2011_02_14 Examples.d_2020_11_15 100 (repeat 8%R 20) 2 8 360
           Examples.script_series _
           (8 / 100 * 100 / 2 * BondInfo.stub Examples.script_series)%R
           (BondInfo.dirty_stub Examples.script_series (BondInfo.y Examples.script_series)
            - 8 / 100 * 100 / 2 * BondInfo.stub Examples.script_series)%R
           (4 / 100)%R).
  - lia.
  - lra.
  - exact script_rates_nonnegative.
  - vm_compute. discriminate.
  - lra.
  - reflexivity.
  - exact script_series_dirtyPrice.
  - reflexivity.
  - lra.
  - replace (4 / 100)%R with (BondInfo.y Examples.script_series) by (cbn; lra).
    exact (equation_root_at_own_yield _ _ _ _ script_series_dirtyPrice).
Defined.

Lemma series_of_repeated_coupon_witness :
  BondInfo.__init__ Examples.d_2011_02_14 Examples.d_2020_11_15 100
    (repeat 8%R (Z.to_nat (FixedRateBond.n Examples.script_fixed))) 2 8 360
  = Returns (as_series Examples.script_fixed) /\
  forall price x,
    FixedRateBond.ytm_couponList Examples.script_fixed price x
    = BondInfo.equation (as_series Examples.script_fixed) price x.
Proof.
  apply (series_of_repeated_coupon
           Examples.d_2011_02_14 Examples.d_2020_11_15 100 8 2 8 360 Examples.script_fixed).
  reflexivity.
Defined.

Lemma FixedRateBond_residual_root_iff_witness :
  FixedRateBond.ytm_couponList Examples.script_fixed
    (FixedRateBond.dirty_stub Examples.script_fixed) (4 / 100) = 0%R
  <-> (4 / 100)%R = FixedRateBond.y Examples.script_fixed.
Proof.
  apply (FixedRateBond_residual_root_iff Examples.script_fixed _
           (FixedRateBond.pmt Examples.script_fixed * FixedRateBond.stub Examples.script_fixed)
           (FixedRateBond.dirty_stub Examples.script_fixed
            - FixedRateBond.pmt Examples.script_fixed
              * FixedRateBond.stub Examples.script_fixed)).
  - cbn; lra.
  - cbn; lra.
  - exact script_fixed_in_range.
  - reflexivity.
  - cbn. unfold Qle. cbn. lia.
  - exact script_fixed_dirtyPrice.
  - lra.
Defined.

Lemma FixedRateBond_simplePrice_residual_root_iff_witness :
  FixedRateBond.ytm_couponList Examples.on_coupon_fixed
    (FixedRateBond.simplePrice_value Examples.on_coupon_fixed) (4 / 100) = 0%R
  <-> (4 / 100)%R = FixedRateBond.y Examples.on_coupon_fixed.
Proof.
  apply (FixedRateBond_simplePrice_residual_root_iff Examples.on_coupon_fixed).
  - cbn; lra.
  - cbn; lra.
  - exact on_coupon_fixed_in_range.
  - reflexivity.
  - reflexivity.
  - apply simplePrice_returns_value. cbn; lra.
  - lra.
Defined.

Lemma series_on_coupon_price_is_simplePrice_witness :
  exists price clean,
    FixedRateBond.simplePrice Examples.on_coupon_fixed = Returns price /\
    BondInfo.dirtyPrice (as_series Examples.on_coupon_fixed) = Returns (price, 0%R, clean) /\
    clean = price.
Proof.
  apply series_on_coupon_price_is_simplePrice.
  - reflexivity.
  - exact on_coupon_fixed_in_range.
Defined.

Lemma IRR_residual_is_on_coupon_residual_witness :
  bondmath.equation 100 (cash_flows_of Examples.zero_yield_series)
    (period_numbers Examples.zero_yield_series) (4 / 100)
  = BondInfo.equation Examples.zero_yield_series 100 (4 / 100).
Proof.
  apply IRR_residual_is_on_coupon_residual.
  - reflexivity.
  - cbn; lia.
  - cbn; lia.
Defined.

Lemma IRR_estimate_overridden_witness :
  bondmath.IRR (bondmath.mkGlobals (Some 100%R) true) diverging_solver
    (4 :: [104])%R [1; 2] (5 / 100)%R
  = bondmath.IRR (bondmath.mkGlobals (Some 100%R) true) diverging_solver
      (4 :: [104])%R [1; 2] (7 / 100)%R.
Proof.
  apply (IRR_estimate_overridden _ _ _ _ _ _ _ 100%R).
  - reflexivity.
  - lra.
Defined.
